(** * The field-value resolution engine of [mappingLoader.js]

    A shallow embedding of [buildFieldValues], [resolveEntry],
    [buildFromPaths], [getPathValue], [resolveCheckbox], [resolveRadio],
    [formatValue] and [formatDate], followed by the properties the
    specification states about them.

    Modelling conventions.
    - A JavaScript value is a term of [value]: the data of a parsed JSON
      document, [undefined], and [Date] objects.  Objects and arrays carry
      the reference that [===] compares; an object is the list of its own
      properties in [Object.entries] order.
    - [getProp] reads own properties: the members an object inherits from
      [Object.prototype] are not values of the model.  Where the engine
      meets them it is modelled apart: an assignment under the key
      ["__proto__"] runs the inherited setter and creates no property
      ([addField], [assign]), and [new Date(v)] raises on an object that has
      no primitive form ([printable], [dateOf]).  The conversions to a string
      of template literals, [String(v)] and [join] are [toString], taken on
      values that convert; a property that needs more says so in its
      hypotheses ([plain], [isAscii]).
    - The output object of [buildFieldValues] is the finite map of its own
      properties.
    - Case folding moves the letters A-Z and a-z only, whitespace is the
      ASCII whitespace: on ASCII strings these are the functions of
      JavaScript.
    - What the host decides (number printing, date parsing, the local time
      zone) is a [Runtime]; every theorem holds for every runtime.
    - A JavaScript exception is the [Throw] of [result]. *)

From stdpp Require Import gmap strings list fin_maps pretty.
From Stdlib Require Import Ascii QArith Qabs.

Local Open Scope string_scope.
Local Open Scope Z_scope.

(** ** Values *)

(** A JavaScript number: the finite doubles are (dyadic) rationals.  The two
    zeros are identified: nothing in the engine tells them apart. *)
Inductive number :=
  | NaN
  | Infinity (negative : bool)
  | Finite (q : Q).

#[local] Set Warnings "-register-all".
Inductive value :=
  | VUndefined
  | VNull
  | VBool (b : bool)
  | VNum (n : number)
  | VStr (s : string)
  | VArr (ref : positive) (elems : list value)
  | VObj (ref : positive) (props : list (string * value))
  | VDate (ref : positive) (time : option Z).

(** The results of [typeof] the engine can meet. *)
Inductive jstype := TUndefined | TObject | TBoolean | TNumber | TString.

Global Instance jstype_eq_dec : EqDecision jstype.
Proof. solve_decision. Defined.

Definition typeof (v : value) : jstype :=
  match v with
  | VUndefined => TUndefined
  | VNull => TObject
  | VBool _ => TBoolean
  | VNum _ => TNumber
  | VStr _ => TString
  | VArr _ _ | VObj _ _ | VDate _ _ => TObject
  end.

Definition number_eqb (a b : number) : bool :=
  match a, b with
  | Finite p, Finite q => Qeq_bool p q
  | Infinity s, Infinity t => bool_decide (s = t)
  | _, _ => false
  end.

(** [a === b] *)
Definition strict_eq (a b : value) : bool :=
  match a, b with
  | VUndefined, VUndefined => true
  | VNull, VNull => true
  | VBool x, VBool y => bool_decide (x = y)
  | VNum x, VNum y => number_eqb x y
  | VStr x, VStr y => bool_decide (x = y)
  | VArr r _, VArr r' _ => bool_decide (r = r')
  | VObj r _, VObj r' _ => bool_decide (r = r')
  | VDate r _, VDate r' _ => bool_decide (r = r')
  | _, _ => false
  end.

(** ToBoolean *)
Definition truthy (v : value) : bool :=
  match v with
  | VUndefined | VNull => false
  | VBool b => b
  | VNum (Finite q) => negb (Qeq_bool q 0)
  | VNum NaN => false
  | VNum (Infinity _) => true
  | VStr s => negb (bool_decide (s = ""))
  | VArr _ _ | VObj _ _ | VDate _ _ => true
  end.

Definition is_undefined (v : value) : bool :=
  match v with VUndefined => true | _ => false end.

(** [v === undefined || v === null] *)
Definition nullish (v : value) : bool :=
  match v with VUndefined | VNull => true | _ => false end.

(** [a ?? b] *)
Definition coalesce (a b : value) : value := if nullish a then b else a.

(** ** Exceptions *)

Inductive exn :=
  | Error (message : string)
  | TypeError.

Inductive result (A : Type) :=
  | Ok (a : A)
  | Throw (e : exn).
Global Arguments Ok {A} a.
Global Arguments Throw {A} e.

Global Instance result_ret : MRet result := λ A a, Ok a.
Global Instance result_bind : MBind result := λ A B f m,
  match m with
  | Ok a => f a
  | Throw e => Throw e
  end.

(** ** Strings *)

Definition lower_ascii (c : ascii) : ascii :=
  let n := N_of_ascii c in
  if ((65 <=? n) && (n <=? 90))%N then ascii_of_N (n + 32) else c.

Definition upper_ascii (c : ascii) : ascii :=
  let n := N_of_ascii c in
  if ((97 <=? n) && (n <=? 122))%N then ascii_of_N (n - 32) else c.

Fixpoint map_string (f : ascii → ascii) (s : string) : string :=
  match s with
  | EmptyString => EmptyString
  | String c r => String (f c) (map_string f r)
  end.

Definition toLowerCase : string → string := map_string lower_ascii.
Definition toUpperCase : string → string := map_string upper_ascii.

Fixpoint trimStart (s : string) : string :=
  match s with
  | String c r => if Ascii.is_space c then trimStart r else s
  | EmptyString => EmptyString
  end.

Definition trim (s : string) : string :=
  String.rev (trimStart (String.rev (trimStart s))).

(** [s.split('.')] *)
Fixpoint split_dot (s : string) : list string :=
  match s with
  | EmptyString => [""]
  | String c r =>
      if Ascii.eqb c "." then "" :: split_dot r
      else match split_dot r with
           | h :: t => String c h :: t
           | [] => [String c ""]
           end
  end.

(** [l.join(sep)] on strings *)
Fixpoint join_strings (sep : string) (l : list string) : string :=
  match l with
  | [] => ""
  | [s] => s
  | s :: r => s +:+ sep +:+ join_strings sep r
  end.

(** [s.padStart(2, '0')] *)
Definition padStart2 (s : string) : string :=
  match s with
  | EmptyString => "00"
  | String c EmptyString => String "0" s
  | _ => s
  end.

Definition newline : string := String "010" "".

(** ** The host *)

Class Runtime := {
  (** [String(n)] on a number *)
  numberToString : number → string;
  (** [Date.parse(s)]: the time value, [None] for [NaN] *)
  dateParse : string → option Z;
  (** [String(d)] on a date with the given time value *)
  dateToString : option Z → string;
  (** the local day of the month, month (from 0) and year of a time value *)
  getDate : Z → Z;
  getMonth : Z → Z;
  getFullYear : Z → Z;
}.

Definition number_of_nat (n : nat) : number := Finite (inject_Z (Z.of_nat n)).

(** TimeClip, then the integral part: the time value of [new Date(n)] *)
Definition timeClip (n : number) : option Z :=
  match n with
  | Finite q =>
      if Qle_bool (Qabs q) (inject_Z 8640000000000000)
      then Some (Z.quot (Qnum q) (Z.pos (Qden q)))
      else None
  | _ => None
  end.

(** ** Conversions and property access *)

Section engine.
Context {rt : Runtime}.

(** ToString; an array prints as [elems.join(',')], where [undefined] and
    [null] elements print as the empty string. *)
Fixpoint toString (v : value) : string :=
  match v with
  | VUndefined => "undefined"
  | VNull => "null"
  | VBool true => "true"
  | VBool false => "false"
  | VNum n => numberToString n
  | VStr s => s
  | VArr _ elems =>
      join_strings ","
        (List.map (λ x, if nullish x then "" else toString x) elems)
  | VObj _ _ => "[object Object]"
  | VDate _ t => dateToString t
  end.

(** [values.join(sep)] *)
Definition join_values (sep : string) (values : list value) : string :=
  join_strings sep (List.map (λ x, if nullish x then "" else toString x) values).

(** The index a property key denotes in a sequence of the given length: the
    key is the canonical decimal numeral of an index below that length. *)
Definition array_index (len : nat) (key : string) : option nat :=
  List.find (λ i, bool_decide (pretty i = key)) (seq 0 len).

Fixpoint lookup_prop (key : string) (props : list (string * value)) : option value :=
  match props with
  | [] => None
  | (k, v) :: rest => if bool_decide (k = key) then Some v else lookup_prop key rest
  end.

Fixpoint string_chars (s : string) : list value :=
  match s with
  | EmptyString => []
  | String c r => VStr (String c "") :: string_chars r
  end.

(** The own property [key] of [o], if [o] has it:
    [Object.prototype.hasOwnProperty.call(o, key)] and then [o[key]]. *)
Definition ownProp (o : value) (key : string) : option value :=
  match o with
  | VObj _ props => lookup_prop key props
  | VArr _ elems =>
      if bool_decide (key = "length") then Some (VNum (number_of_nat (length elems)))
      else i ← array_index (length elems) key; elems !! i
  | VStr s =>
      if bool_decide (key = "length") then Some (VNum (number_of_nat (String.length s)))
      else i ← array_index (String.length s) key; string_chars s !! i
  | _ => None
  end.

(** [o[key]] and [o.key] as a read of the own properties, for an [o] that is
    neither [undefined] nor [null] (every read of the engine is guarded
    so). *)
Definition getProp (o : value) (key : string) : value :=
  default VUndefined (ownProp o key).

(** [Object.entries(o)] *)
Definition entries (o : value) : list (string * value) :=
  match o with
  | VObj _ props => props
  | VArr _ elems => imap (λ i x, (pretty i, x)) elems
  | VStr s => imap (λ i x, (pretty i, x)) (string_chars s)
  | _ => []
  end.

(** [o[key] = v] on the own properties of a plain object: an existing key
    keeps its place. *)
Fixpoint setProp (key : string) (v : value) (props : list (string * value))
  : list (string * value) :=
  match props with
  | [] => [(key, v)]
  | (k, w) :: rest =>
      if bool_decide (k = key) then (k, v) :: rest else (k, w) :: setProp key v rest
  end.

(** [Object.fromEntries(l)] *)
Definition fromEntries (l : list (string * value)) : list (string * value) :=
  fold_left (λ o kv, setProp kv.1 kv.2 o) l [].

(** [o[key] = v] as an assignment on an object made by the literal [{}], for
    a key assigned once: the key ["__proto__"] names the accessor inherited
    from [Object.prototype], whose setter creates no own property; any other
    key is created or updated. *)
Definition assign (key : string) (v : value) (props : list (string * value))
  : list (string * value) :=
  if bool_decide (key = "__proto__") then props else setProp key v props.

(** Whether ToPrimitive returns on [v]: an object with an own [toString]
    property, which no datum makes callable, has no primitive form (the
    inherited [valueOf] returns the object itself), and an array has one when
    its elements have, since [Array.prototype.toString] joins them. *)
Fixpoint printable (v : value) : bool :=
  match v with
  | VObj _ props => negb (bool_decide ("toString" ∈ props.*1))
  | VArr _ elems => forallb printable elems
  | _ => true
  end.

(** ** PathResolver *)

(** The loop of [getPathValue] over the segments. *)
Fixpoint walk (segments : list string) (current : value) : value :=
  match segments with
  | [] => current
  | segment :: rest =>
      if truthy current then
        match ownProp current segment with
        | Some next => walk rest next
        | None => VUndefined
        end
      else VUndefined
  end.

Definition getPathValue (source pathExpression : value) : result value :=
  if negb (truthy source) || negb (truthy pathExpression) then Ok VUndefined
  else match pathExpression with
       | VStr p => Ok (walk (split_dot p) source)
       | _ => Throw TypeError (* pathExpression.split is not a function *)
       end.

(** ** ValueFormatter *)

(** [value instanceof Date ? value : new Date(value)], as the time value
    [date.getTime()]; [None] is [NaN].  [new Date(value)] converts an object
    to a primitive first, and raises when it has none. *)
Definition dateOf (v : value) : result (option Z) :=
  match v with
  | VDate _ t => Ok t
  | VStr s => Ok (dateParse s)
  | VNum n => Ok (timeClip n)
  | VBool b => Ok (Some (if b then 1 else 0))
  | VNull => Ok (Some 0)
  | VUndefined => Ok None
  | VArr _ _ | VObj _ _ =>
      if printable v then Ok (dateParse (toString v))
      else Throw TypeError (* Cannot convert object to primitive value *)
  end.

(** [pattern.replace(/DD|MM|YYYY/g, (match) => components[match])] *)
Fixpoint replaceComponents (DD MM YYYY : string) (pattern : string) : string :=
  match pattern with
  | String "D" (String "D" rest) => DD +:+ replaceComponents DD MM YYYY rest
  | String "M" (String "M" rest) => MM +:+ replaceComponents DD MM YYYY rest
  | String "Y" (String "Y" (String "Y" (String "Y" rest))) =>
      YYYY +:+ replaceComponents DD MM YYYY rest
  | String c rest => String c (replaceComponents DD MM YYYY rest)
  | EmptyString => EmptyString
  end.

Definition formatDate (v : value) (pattern : string) : result value :=
  time ← dateOf v;
  Ok (match time with
      | None => v
      | Some t =>
          VStr (replaceComponents
                  (padStart2 (pretty (getDate t)))
                  (padStart2 (pretty (getMonth t + 1)))
                  (pretty (getFullYear t))
                  pattern)
      end).

Definition formatValue (v format : value) : result value :=
  if is_undefined v || strict_eq v VNull || strict_eq v (VStr "") then Ok v
  else if strict_eq format (VStr "DATE_DDMMYYYY") then formatDate v "DD.MM.YYYY"
  else if strict_eq format (VStr "DATE_ISO") then formatDate v "YYYY-MM-DD"
  else Ok v.

(** ** TypeSpecializers *)

(** [truthyValues.map((v) => v.toLowerCase())]: only a string has the
    method. *)
Definition lowerCaseAll (elems : list value) : result (list string) :=
  mapM (λ v, match v with
             | VStr s => Ok (toLowerCase s)
             | _ => Throw TypeError (* v.toLowerCase is not a function *)
             end) elems.

Definition resolveCheckbox (v entry : value) : result value :=
  if negb (is_undefined (getProp entry "equals")) then
    Ok (VBool (strict_eq v (getProp entry "equals")))
  else if truthy (getProp entry "truthyValues") && negb (nullish v) then
    let compareValue := toLowerCase (toString v) in
    match getProp entry "truthyValues" with
    | VArr _ elems =>
        lowered ← lowerCaseAll elems;
        Ok (VBool (bool_decide (compareValue ∈ lowered)))
    | _ => Throw TypeError (* entry.truthyValues.map is not a function *)
    end
  else Ok (VBool (truthy v)).

(** [Object.entries(entry.map || {})] *)
Definition mapEntries (entry : value) : list (string * value) :=
  if truthy (getProp entry "map") then entries (getProp entry "map") else [].

(** [Object.fromEntries(Object.entries(entry.map || {}).map(([key, v]) =>
    [key.toLowerCase(), v]))] *)
Definition normalizedMap (entry : value) : list (string * value) :=
  fromEntries (List.map (λ kv, (toLowerCase kv.1, kv.2)) (mapEntries entry)).

(** The two lookups, [normalizedMap[lookupKey]] and [entry.map[value]], are
    reads of the own properties of the map. *)
Definition resolveRadio (v entry : value) : value :=
  if nullish v then coalesce (getProp entry "default") VNull
  else
    let folded :=
      match v with
      | VStr s =>
          if truthy (getProp entry "caseInsensitive") then
            let lookupKey := toLowerCase s in
            let hit := default VUndefined (lookup_prop lookupKey (normalizedMap entry)) in
            if truthy hit then Some hit else None
          else None
      | _ => None
      end in
    match folded with
    | Some hit => hit
    | None =>
        if truthy (getProp entry "map")
           && negb (is_undefined (getProp (getProp entry "map") (toString v)))
        then getProp (getProp entry "map") (toString v)
        else coalesce (getProp entry "default") v
    end.

(** ** Multi-path concatenation *)

(** The callback of [paths.map] in [buildFromPaths]. *)
Definition resolvePathDef (context pathDef : value) : result value :=
  if bool_decide (typeof pathDef = TString) then getPathValue context pathDef
  else if truthy pathDef && bool_decide (typeof pathDef = TObject)
          && truthy (getProp pathDef "path") then
    v ← getPathValue context (getProp pathDef "path");
    if truthy (getProp pathDef "format")
    then formatValue v (getProp pathDef "format") else Ok v
  else Ok VNull.

(** The predicate of [.filter] in [buildFromPaths]. *)
Definition contributes (v : value) : bool :=
  negb (is_undefined v) && negb (strict_eq v VNull) && negb (strict_eq v (VStr "")).

Definition buildFromPaths (paths joiner context : value) : result value :=
  let joiner := if is_undefined joiner then VStr newline else joiner in
  match paths with
  | VArr _ pathDefs =>
      resolved ← mapM (resolvePathDef context) pathDefs;
      let values := List.filter contributes resolved in
      if bool_decide (length values = 0%nat) then Ok VNull
      else Ok (VStr (if truthy joiner then join_values (toString joiner) values
                     else join_values "" values))
  | _ => Throw TypeError (* paths.map is not a function *)
  end.

(** ** EntryResolver *)

(** Lines 45-51: the base value. *)
Definition baseValue (entry context : value) : result value :=
  if truthy (getProp entry "paths") then
    buildFromPaths (getProp entry "paths") (getProp entry "join") context
  else if truthy (getProp entry "path") then
    getPathValue context (getProp entry "path")
  else Ok VNull.

(** Lines 53-55. *)
Definition applyFormat (entry v : value) : result value :=
  if truthy (getProp entry "format") then formatValue v (getProp entry "format") else Ok v.

(** Lines 57-59. *)
Definition applyPrefix (entry v : value) : value :=
  if truthy (getProp entry "prefix") && truthy v
  then VStr (toString (getProp entry "prefix") +:+ toString v) else v.

(** Lines 61-63. *)
Definition applySuffix (entry v : value) : value :=
  if truthy (getProp entry "suffix") && truthy v
  then VStr (toString v +:+ toString (getProp entry "suffix")) else v.

(** [typeof v === 'string' ? f(v) : v] *)
Definition onString (f : string → string) (v : value) : value :=
  match v with VStr s => VStr (f s) | _ => v end.

(** Lines 65-67. *)
Definition applyTrim (entry v : value) : value :=
  if negb (strict_eq (getProp entry "trim") (VBool false)) then onString trim v else v.

(** Lines 78-84. *)
Definition applyCase (entry v : value) : value :=
  let v := if truthy (getProp entry "uppercase") then onString toUpperCase v else v in
  if truthy (getProp entry "lowercase") then onString toLowerCase v else v.

(** Lines 86-90. *)
Definition applyDefault (entry v : value) : value :=
  if (is_undefined v || strict_eq v VNull || strict_eq v (VStr ""))
     && negb (is_undefined (getProp entry "default"))
  then getProp entry "default" else v.

Definition resolveEntry (entry context : value) : result value :=
  if nullish entry then Ok entry
  else if bool_decide (typeof entry = TString) then getPathValue context entry
  else if bool_decide (typeof entry ≠ TObject) then Ok entry
  else if negb (is_undefined (getProp entry "value")) then Ok (getProp entry "value")
  else
    base ← baseValue entry context;
    formatted ← applyFormat entry base;
    let v := applyTrim entry (applySuffix entry (applyPrefix entry formatted)) in
    if strict_eq (getProp entry "type") (VStr "checkbox") then resolveCheckbox v entry
    else if strict_eq (getProp entry "type") (VStr "radio") then Ok (resolveRadio v entry)
    else Ok (applyDefault entry (applyCase entry v)).

(** ** FieldValueBuilder *)

(** The body of the loop of [buildFieldValues]; [output] is the finite map of
    the own properties of the object under construction.  The keys of
    [Object.entries] are distinct, so [output[fieldName] = value] meets a
    field named ["__proto__"] once, on the accessor [output] inherits from
    [Object.prototype]: it creates no property (see [assign]). *)
Definition addField (context : value) (output : gmap string value)
    (field : string * value) : result (gmap string value) :=
  v ← resolveEntry field.2 context;
  Ok (if negb (is_undefined v) && negb (strict_eq v VNull)
      then if bool_decide (field.1 = "__proto__") then output
           else <[field.1 := v]> output
      else output).

Fixpoint forEach (context : value) (fields : list (string * value))
    (output : gmap string value) : result (gmap string value) :=
  match fields with
  | [] => Ok output
  | field :: rest => output' ← addField context output field; forEach context rest output'
  end.

Definition buildFieldValues (mappingConfig context : value)
  : result (gmap string value) :=
  if negb (truthy mappingConfig) || bool_decide (typeof mappingConfig ≠ TObject)
  then Throw (Error "Mapping config must be an object.")
  else forEach context (entries mappingConfig) ∅.

End engine.

(** ** A host to evaluate examples with

    UTC as the local time zone, [Date.parse] restricted to the ISO form
    [YYYY-MM-DD], integers printed in decimal.  It is one admissible
    runtime, not the definition of JavaScript's: non-integral numbers and the
    integers from 10^21 on are printed as a fraction here, which JavaScript
    does not do.  The theorems quantify over every runtime. *)
Module Utc.

Definition msPerDay : Z := 86400000.

(** Days since 1970-01-01 of a civil date (proleptic Gregorian). *)
Definition daysFromCivil (y m d : Z) : Z :=
  let y' := if m <=? 2 then y - 1 else y in
  let era := y' / 400 in
  let yoe := y' - era * 400 in
  let doy := (153 * (if 2 <? m then m - 3 else m + 9) + 2) / 5 + d - 1 in
  let doe := yoe * 365 + yoe / 4 - yoe / 100 + doy in
  era * 146097 + doe - 719468.

(** The civil date (year, month from 1, day) of a day number. *)
Definition civilFromDays (z : Z) : Z * Z * Z :=
  let z := z + 719468 in
  let era := z / 146097 in
  let doe := z - era * 146097 in
  let yoe := (doe - doe / 1460 + doe / 36524 - doe / 146096) / 365 in
  let doy := doe - (365 * yoe + yoe / 4 - yoe / 100) in
  let mp := (5 * doy + 2) / 153 in
  let d := doy - (153 * mp + 2) / 5 + 1 in
  let m := if mp <? 10 then mp + 3 else mp - 9 in
  ((yoe + era * 400 + (if m <=? 2 then 1 else 0), m), d).

Definition digit (c : ascii) : option Z := Z.of_nat <$> Ascii.is_nat c.

Fixpoint digits (acc : Z) (s : string) : option Z :=
  match s with
  | EmptyString => Some acc
  | String c r => d ← digit c; digits (10 * acc + d) r
  end.

Definition parseIsoDate (s : string) : option Z :=
  match s with
  | String y1 (String y2 (String y3 (String y4 (String "-"
      (String m1 (String m2 (String "-" (String d1 (String d2 EmptyString))))))))) =>
      y ← digits 0 (String y1 (String y2 (String y3 (String y4 ""))));
      m ← digits 0 (String m1 (String m2 ""));
      d ← digits 0 (String d1 (String d2 ""));
      if bool_decide (civilFromDays (daysFromCivil y m d) = (y, m, d))
      then Some (daysFromCivil y m d * msPerDay) else None
  | _ => None
  end.

Definition printNumber (n : number) : string :=
  match n with
  | NaN => "NaN"
  | Infinity false => "Infinity"
  | Infinity true => "-Infinity"
  | Finite q =>
      let r := Qred q in
      if bool_decide (Qden r = 1%positive) then pretty (Qnum r)
      else pretty (Qnum r) +:+ "/" +:+ pretty (Z.pos (Qden r))
  end.

Definition pad (width : nat) (s : string) : string :=
  String.concat "" (replicate (width - String.length s) "0") +:+ s.

Definition dayName (i : Z) : string :=
  nth (Z.to_nat i) ["Sun"; "Mon"; "Tue"; "Wed"; "Thu"; "Fri"; "Sat"] "".
Definition monthName (i : Z) : string :=
  nth (Z.to_nat i)
    ["Jan"; "Feb"; "Mar"; "Apr"; "May"; "Jun"; "Jul"; "Aug"; "Sep"; "Oct"; "Nov"; "Dec"] "".

Definition printDate (time : option Z) : string :=
  match time with
  | None => "Invalid Date"
  | Some t =>
      let day := t / msPerDay in
      let ms := t mod msPerDay in
      let '(y, m, d) := civilFromDays day in
      dayName ((day + 4) mod 7) +:+ " " +:+ monthName (m - 1) +:+ " "
      +:+ pad 2 (pretty d) +:+ " "
      +:+ (if 0 <=? y then pad 4 (pretty y) else "-" +:+ pad 6 (pretty (- y)))
      +:+ " " +:+ pad 2 (pretty (ms / 3600000))
      +:+ ":" +:+ pad 2 (pretty (ms / 60000 mod 60))
      +:+ ":" +:+ pad 2 (pretty (ms / 1000 mod 60))
      +:+ " GMT+0000 (Coordinated Universal Time)"
  end.

Definition runtime : Runtime := {|
  numberToString := printNumber;
  dateParse := parseIsoDate;
  dateToString := printDate;
  getDate t := (civilFromDays (t / msPerDay)).2;
  getMonth t := (civilFromDays (t / msPerDay)).1.2 - 1;
  getFullYear t := (civilFromDays (t / msPerDay)).1.1;
|}.

End Utc.

(** ** A second host: the dates of V8

    V8, the engine of Node, takes in [YYYY-MM-DD] a day from 1 to 31 whatever
    the month, and carries what exceeds the month into the next one:
    ["2024-02-30"] is the first of March 2024.  The rest is the host
    above. *)
Module V8.

Definition parseIsoDate (s : string) : option Z :=
  match s with
  | String y1 (String y2 (String y3 (String y4 (String "-"
      (String m1 (String m2 (String "-" (String d1 (String d2 EmptyString))))))))) =>
      y ← Utc.digits 0 (String y1 (String y2 (String y3 (String y4 ""))));
      m ← Utc.digits 0 (String m1 (String m2 ""));
      d ← Utc.digits 0 (String d1 (String d2 ""));
      if bool_decide (1 ≤ m ≤ 12 ∧ 1 ≤ d ≤ 31)
      then Some (Utc.daysFromCivil y m d * Utc.msPerDay) else None
  | _ => None
  end.

Definition runtime : Runtime := {|
  numberToString := Utc.printNumber;
  dateParse := parseIsoDate;
  dateToString := Utc.printDate;
  getDate := @getDate Utc.runtime;
  getMonth := @getMonth Utc.runtime;
  getFullYear := @getFullYear Utc.runtime;
|}.

End V8.

(** ** Vocabulary of the properties *)

(** A value every part of which has a primitive form: no object in it has an
    own [toString] property. *)
Fixpoint plain (v : value) : bool :=
  match v with
  | VObj _ props =>
      negb (bool_decide ("toString" ∈ props.*1))
      && forallb (λ kv, match kv with (_, x) => plain x end) props
  | VArr _ elems => forallb plain elems
  | _ => true
  end.


(** A value that, if a string, has none of the letters A-Z. *)
Definition lowerCased (v : value) : Prop :=
  match v with VStr s => toLowerCase s = s | _ => True end.

(** A value that is [undefined], [null] or the empty string: what the
    default of an entry replaces. *)
Definition isBlank (v : value) : bool :=
  is_undefined v || strict_eq v VNull || strict_eq v (VStr "").


(** A path expression [getPathValue] accepts without raising: a falsy one
    (no lookup) or a string. *)
Definition pathOk (p : value) : bool :=
  negb (truthy p) || bool_decide (typeof p = TString).

(** An element of [paths] whose resolution does not raise. *)
Definition pathDefOk (d : value) : bool :=
  bool_decide (typeof d = TString) || pathOk (getProp d "path").

Definition isString (v : value) : bool := bool_decide (typeof v = TString).

(** An entry whose [paths] is falsy or an array of well-formed elements,
    whose [path] is falsy or a string, and whose [truthyValues] is falsy or
    an array of strings. *)
Definition wellFormed (entry : value) : bool :=
  (negb (truthy (getProp entry "paths"))
   || match getProp entry "paths" with
      | VArr _ ds => forallb pathDefOk ds
      | _ => false
      end)
  && pathOk (getProp entry "path")
  && (negb (truthy (getProp entry "truthyValues"))
      || match getProp entry "truthyValues" with
         | VArr _ elems => forallb isString elems
         | _ => false
         end).

(** Sample data. *)
Definition jane : value :=
  VObj 1 [("traveler", VObj 2 [("firstName", VStr "Jane"); ("lastName", VStr "Doe")])].

(** ** Applying values to a form ([fill_austria_form.js])

    The form and its fields belong to the PDF library: a field is its
    constructor name, its name, its options and its methods, each method
    returning or raising; what a method does to the document is the
    library's.  Reading, flattening and saving the document are the host's
    and are left out of [fillPdfForm], which keeps its check of [data], its
    loop and the two lists it returns. *)

Definition coerceCheckboxValue (v : value) : bool :=
  match v with
  | VBool b => b
  | VNum n => negb (number_eqb n (Finite 0))
  | VStr s =>
      let normalized := toLowerCase (trim s) in
      if bool_decide (normalized = "")
         || bool_decide (normalized = "false")
         || bool_decide (normalized = "0")
         || bool_decide (normalized = "off")
         || bool_decide (normalized = "no")
         || bool_decide (normalized = "unchecked")
      then false
      else if bool_decide (normalized = "true")
              || bool_decide (normalized = "1")
              || bool_decide (normalized = "on")
              || bool_decide (normalized = "yes")
              || bool_decide (normalized = "checked")
              || bool_decide (normalized = "x")
      then true
      else truthy v
  | _ => truthy v
  end.

Record field := {
  (** [field.constructor.name] *)
  constructorName : string;
  getName : string;
  getOptions : list string;
  setText : value → result unit;
  select : value → result unit;
  check : result unit;
  uncheck : result unit;
}.

Section filling.
Context {rt : Runtime}.

Definition applyValueToField (f : field) (v : value) : result unit :=
  let fieldType := constructorName f in
  if bool_decide (fieldType = "PDFTextField") then setText f (coalesce v (VStr ""))
  else if bool_decide (fieldType = "PDFDropdown") then
    select f (VStr (toString (coalesce v (VStr ""))))
  else if bool_decide (fieldType = "PDFRadioGroup") then
    if bool_decide (typeof v ≠ TString)
    then Throw (Error "Radio values must be strings that match the option name.")
    else select f v
  else if bool_decide (fieldType = "PDFCheckBox") then
    if coerceCheckboxValue v then check f else uncheck f
  else Throw (Error ("Field type " +:+ fieldType +:+ " not supported.")).

(** [form.getField(name)] raises for a name the form does not have. *)
Definition tryGetField (getField : string → result field) (name : string) : option field :=
  match getField name with
  | Ok f => Some f
  | Throw _ => None
  end.

(** The loop of [fillPdfForm]: the names pushed to [updated] and to
    [missingFields]; a field whose update raises is skipped with a warning. *)
Fixpoint fillFields (getField : string → result field) (fields : list (string * value))
    (updated missingFields : list string) : list string * list string :=
  match fields with
  | [] => (updated, missingFields)
  | (fieldName, v) :: rest =>
      match tryGetField getField fieldName with
      | None => fillFields getField rest updated (missingFields ++ [fieldName])
      | Some f =>
          match applyValueToField f v with
          | Ok _ => fillFields getField rest (updated ++ [fieldName]) missingFields
          | Throw _ => fillFields getField rest updated missingFields
          end
      end
  end.

Definition fillPdfForm (getField : string → result field) (data : value)
  : result (list string * list string) :=
  if negb (truthy data) || bool_decide (typeof data ≠ TObject)
  then Throw (Error ("The " +:+ String "034" "data" +:+ String "034"
                       " option must be an object with fieldName:value entries."))
  else Ok (fillFields getField (entries data) [] []).

End filling.

(** ** Generating placeholder data ([generate_dummy_data.js])

    The loop of [main] over the fields of the form: what it leaves in
    [orderedData], given the fields and the data read from the existing
    file. *)

Record generator := {
  shortTextCounter : nat;
  longTextCounter : nat;
  checkboxToggle : bool;
  orderedData : list (string * value);
}.

(** [options.find((opt) => opt && opt.toLowerCase() !== 'off') ?? options[0]
    ?? ''] *)
Definition pickOption (options : list string) : string :=
  match List.find (λ opt, negb (bool_decide (opt = ""))
                          && negb (bool_decide (toLowerCase opt = "off"))) options with
  | Some opt => opt
  | None => match options with opt :: _ => opt | [] => "" end
  end.

(** [Object.prototype.hasOwnProperty.call(existingData, name) ?
    existingData[name] : undefined]; the call raises on [null] and
    [undefined]. *)
Definition prefilledValue (existingData : value) (name : string) : result value :=
  if nullish existingData then Throw TypeError
  else Ok (getProp existingData name).

(** The body of the loop for one field; [orderedData[name] = value] is an
    assignment on the literal [{}], a form having one field of a name. *)
Definition generateField (existingData : value) (g : generator) (f : field)
  : result generator :=
  let name := getName f in
  prefilled ← prefilledValue existingData name;
  if negb (is_undefined prefilled) then
    Ok {| shortTextCounter := shortTextCounter g;
          longTextCounter := longTextCounter g;
          checkboxToggle := checkboxToggle g;
          orderedData := assign name prefilled (orderedData g) |}
  else
    let ctorName := constructorName f in
    if bool_decide (ctorName = "PDFTextField") then
      if String.prefix "textarea_" name then
        Ok {| shortTextCounter := shortTextCounter g;
              longTextCounter := longTextCounter g + 1;
              checkboxToggle := checkboxToggle g;
              orderedData :=
                assign name
                  (VStr ("Multiline sample paragraph #" +:+ pretty (longTextCounter g)
                         +:+ newline +:+ "Second line for " +:+ name))
                  (orderedData g) |}
      else
        Ok {| shortTextCounter := shortTextCounter g + 1;
              longTextCounter := longTextCounter g;
              checkboxToggle := checkboxToggle g;
              orderedData :=
                assign name
                  (VStr ("Sample value #" +:+ pretty (shortTextCounter g)
                         +:+ " for " +:+ name))
                  (orderedData g) |}
    else if bool_decide (ctorName = "PDFRadioGroup") then
      Ok {| shortTextCounter := shortTextCounter g;
            longTextCounter := longTextCounter g;
            checkboxToggle := checkboxToggle g;
            orderedData := assign name (VStr (pickOption (getOptions f))) (orderedData g) |}
    else if bool_decide (ctorName = "PDFCheckBox") then
      Ok {| shortTextCounter := shortTextCounter g;
            longTextCounter := longTextCounter g;
            checkboxToggle := negb (checkboxToggle g);
            orderedData := assign name (VBool (checkboxToggle g)) (orderedData g) |}
    else
      Ok {| shortTextCounter := shortTextCounter g;
            longTextCounter := longTextCounter g;
            checkboxToggle := checkboxToggle g;
            orderedData := assign name (VStr "") (orderedData g) |}.

Fixpoint generateFields (existingData : value) (fields : list field) (g : generator)
  : result generator :=
  match fields with
  | [] => Ok g
  | f :: rest => g' ← generateField existingData g f; generateFields existingData rest g'
  end.

(** [orderedData] at the end of the loop. *)
Definition generateData (fields : list field) (existingData : value)
  : result (list (string * value)) :=
  g ← generateFields existingData fields
         {| shortTextCounter := 1; longTextCounter := 1; checkboxToggle := true;
            orderedData := [] |};
  Ok (orderedData g).

(** ** The command line of [inspect_form.js] *)

Module InspectForm.

Definition DEFAULT_INPUT : string := "austria.pdf".

(** How [parseArgs] ends: with its options, or in [process.exit(code)]
    after printing the help. *)
Inductive outcome :=
  | Returned (inputPath : option string)
  | Exited (code : Z).

(** The loop of [parseArgs] from the current [options.inputPath] ([None] is
    [undefined], what [argv[++i]] reads past the end). *)
Fixpoint parseLoop (inputPath : option string) (argv : list string) : outcome :=
  match argv with
  | [] => Returned inputPath
  | arg :: rest =>
      if bool_decide (arg = "-i") || bool_decide (arg = "--input") then
        match rest with
        | next :: rest' => parseLoop (Some next) rest'
        | [] => Returned None
        end
      else if bool_decide (arg = "-h") || bool_decide (arg = "--help") then Exited 0
      else if match inputPath with
              | None => true
              | Some p => bool_decide (p = "") || bool_decide (p = DEFAULT_INPUT)
              end
      then parseLoop (Some arg) rest
      else Exited 1
  end.

Definition parseArgs (argv : list string) : outcome :=
  parseLoop (Some DEFAULT_INPUT) argv.

(** A path a later argument may replace: [!options.inputPath ||
    options.inputPath === DEFAULT_INPUT]. *)
Definition replaceable (p : string) : bool :=
  bool_decide (p = "") || bool_decide (p = DEFAULT_INPUT).

End InspectForm.

(** ** More vocabulary *)

(** A string of whitespace only. *)
Fixpoint blank (s : string) : bool :=
  match s with
  | EmptyString => true
  | String c r => Ascii.is_space c && blank r
  end.

(** A value that, if a string, has no whitespace at either end. *)
Definition trimmed (v : value) : Prop :=
  match v with VStr s => trim s = s | _ => True end.

(** ** Sample forms and fields *)

Definition textField (name : string) : field := {|
  constructorName := "PDFTextField";
  getName := name;
  getOptions := [];
  setText v := if bool_decide (typeof v = TString) then Ok () else Throw TypeError;
  select _ := Throw TypeError;
  check := Throw TypeError;
  uncheck := Throw TypeError;
|}.

Definition checkBox (name : string) : field := {|
  constructorName := "PDFCheckBox";
  getName := name;
  getOptions := [];
  setText _ := Throw TypeError;
  select _ := Throw TypeError;
  check := Ok ();
  uncheck := Ok ();
|}.

Definition radioGroup (name : string) (options : list string) : field := {|
  constructorName := "PDFRadioGroup";
  getName := name;
  getOptions := options;
  setText _ := Throw TypeError;
  select v :=
    match v with
    | VStr s => if bool_decide (s ∈ options) then Ok () else Throw (Error "no such option")
    | _ => Throw TypeError
    end;
  check := Throw TypeError;
  uncheck := Throw TypeError;
|}.

Definition sampleFields : list field :=
  [textField "surname"; textField "textarea_notes"; checkBox "minor";
   radioGroup "sex" ["Off"; "male"; "female"]; checkBox "insured"].

(** [form.getField] over [sampleFields]. *)
Definition sampleForm (name : string) : result field :=
  match List.find (λ f, bool_decide (getName f = name)) sampleFields with
  | Some f => Ok f
  | None => Throw (Error "no such field")
  end.

Definition sampleData : value :=
  VObj 1 [("surname", VStr "Doe"); ("minor", VStr "no"); ("sex", VBool true);
          ("nickname", VStr "JD")].

(** ** The scenarios of the specification, evaluated *)

Section scenarios.
Local Existing Instance Utc.runtime.

Example scenario_paths :
  resolveEntry
    (VObj 3 [("paths", VArr 4 [VStr "traveler.firstName"; VStr "traveler.lastName"]);
             ("join", VStr " ")]) jane
  = Ok (VStr "Jane Doe").
Proof. vm_compute. reflexivity. Qed.

Example scenario_date_iso :
  resolveEntry (VObj 3 [("path", VStr "doc_date"); ("format", VStr "DATE_ISO")])
    (VObj 1 [("doc_date", VStr "2024-03-05")])
  = Ok (VStr "2024-03-05").
Proof. vm_compute. reflexivity. Qed.

Example scenario_date_ddmmyyyy :
  formatValue (VStr "2024-03-05") (VStr "DATE_DDMMYYYY") = Ok (VStr "05.03.2024").
Proof. vm_compute. reflexivity. Qed.

Example scenario_checkbox :
  let entry := VObj 3 [("type", VStr "checkbox");
                       ("truthyValues", VArr 4 [VStr "yes"; VStr "on"])] in
  resolveCheckbox (VStr "YES") entry = Ok (VBool true)
  ∧ resolveCheckbox (VStr "no") entry = Ok (VBool false).
Proof. split; vm_compute; reflexivity. Qed.

Example scenario_radio :
  resolveRadio (VStr "A") (VObj 3 [("type", VStr "radio"); ("map", VObj 4 [("A", VStr "foo")])])
  = VStr "foo"
  ∧ resolveRadio (VStr "a")
      (VObj 3 [("type", VStr "radio"); ("caseInsensitive", VBool true);
               ("map", VObj 4 [("A", VStr "foo")])])
    = VStr "foo"
  ∧ resolveRadio (VStr "b")
      (VObj 3 [("type", VStr "radio"); ("caseInsensitive", VBool true);
               ("map", VObj 4 [("B", VStr "first"); ("b", VStr "second")])])
    = VStr "second".
Proof. repeat split; vm_compute; reflexivity. Qed.

Example scenario_default :
  resolveEntry (VObj 3 [("path", VStr "missing.key"); ("default", VStr "N/A")]) jane
  = Ok (VStr "N/A").
Proof. vm_compute. reflexivity. Qed.

(** Malformed entries raise where a method is missing, and only when the
    lookup is reached. *)
Example scenario_malformed :
  resolveEntry (VObj 3 [("type", VStr "checkbox"); ("path", VStr "traveler.firstName");
                        ("truthyValues", VStr "yes")]) jane
  = Throw TypeError
  ∧ resolveEntry (VObj 3 [("path", VNum (Finite 5))]) jane = Throw TypeError
  ∧ resolveEntry (VObj 3 [("path", VNum (Finite 5))]) VUndefined = Ok VUndefined
  ∧ resolveEntry (VObj 3 [("paths", VStr "traveler.firstName")]) jane = Throw TypeError.
Proof. repeat split; vm_compute; reflexivity. Qed.

Example scenario_prefix_suffix :
  resolveEntry
    (VObj 3 [("path", VStr "traveler.lastName"); ("prefix", VStr "  Ms ");
             ("suffix", VStr ", PhD "); ("lowercase", VBool true);
             ("uppercase", VBool true)]) jane
  = Ok (VStr "ms doe, phd").
Proof. vm_compute. reflexivity. Qed.

Example scenario_array_path :
  getPathValue (VObj 1 [("rows", VArr 2 [VStr "a"; VStr "bc"])]) (VStr "rows.1.length")
  = Ok (VNum (Finite (2 # 1))).
Proof. vm_compute. reflexivity. Qed.

Example scenario_date_print :
  toString (VDate 1 (Some 1709596800000))
  = "Tue Mar 05 2024 00:00:00 GMT+0000 (Coordinated Universal Time)".
Proof. vm_compute. reflexivity. Qed.

End scenarios.

(** ** Properties *)

Section properties.
Context {rt : Runtime}.

(** *** Basic facts *)

Lemma strict_eq_VStr v s : strict_eq v (VStr s) = true ↔ v = VStr s.
Proof.
  destruct v; simpl; try (split; [discriminate | congruence]).
  rewrite bool_decide_eq_true. split; congruence.
Qed.

Lemma is_undefined_false v : is_undefined v = false ↔ v ≠ VUndefined.
Proof. destruct v; simpl; split; congruence. Qed.

(** The guard of line 21 is the negation of [nullish]. *)
Lemma defined_not_null v :
  negb (is_undefined v) && negb (strict_eq v VNull) = negb (nullish v).
Proof. by destruct v. Qed.

(** A string has no method to miss: a path lookup by a string returns. *)
Lemma getPathValue_string source s :
  getPathValue source (VStr s)
  = Ok (if truthy source && truthy (VStr s) then walk (split_dot s) source
        else VUndefined).
Proof.
  unfold getPathValue. destruct (truthy source); [|done].
  by destruct (truthy (VStr s)).
Qed.

Lemma getPathValue_pathOk source p :
  pathOk p = true → ∃ v, getPathValue source p = Ok v.
Proof.
  unfold pathOk, getPathValue. intros Hp.
  destruct (truthy source); simpl; [|eauto].
  destruct (truthy p); simpl in *; [|eauto].
  destruct p; simpl in Hp; try discriminate; eauto.
Qed.

(** Every exception of the resolver is a [TypeError]. *)
Lemma getPathValue_throws source p e : getPathValue source p = Throw e → e = TypeError.
Proof.
  unfold getPathValue. destruct (_ || _); [discriminate|].
  destruct p; congruence.
Qed.

Lemma mapM_throws {A B} (f : A → result B) l e :
  mapM f l = Throw e → ∃ a, a ∈ l ∧ f a = Throw e.
Proof.
  induction l as [|a l IH]; simpl; [discriminate|].
  destruct (f a) as [b|e'] eqn:Ha; simpl.
  - destruct (mapM f l) as [k|e'] eqn:Hl; simpl; [discriminate|].
    intros [= ->]. destruct IH as (a' & ? & ?); [done|].
    exists a'. split; [by right | done].
  - intros [= ->]. exists a. split; [by left | done].
Qed.

Lemma mapM_returns {A B} (f : A → result B) (P : B → Prop) l :
  Forall (λ a, ∃ b, f a = Ok b ∧ P b) l → ∃ k, mapM f l = Ok k ∧ Forall P k.
Proof.
  induction 1 as [|a l (b & Hb & HP) _ (k & Hk & HPk)]; simpl.
  - exists []. by split.
  - exists (b :: k). rewrite Hb; simpl. rewrite Hk; simpl. split; [done | by constructor].
Qed.

Lemma dateOf_throws v e : dateOf v = Throw e → e = TypeError.
Proof.
  destruct v; simpl; try discriminate.
  - destruct (forallb _ _); congruence.
  - destruct (negb _); congruence.
Qed.

Lemma formatValue_throws v format e : formatValue v format = Throw e → e = TypeError.
Proof.
  unfold formatValue, formatDate. destruct (_ || _); [discriminate|].
  repeat (destruct (strict_eq format _); [|]); try discriminate;
    (destruct (dateOf v) as [t|e'] eqn:Hd; simpl; [discriminate|]);
    intros [= ->]; by eapply dateOf_throws.
Qed.

Lemma resolvePathDef_throws context d e :
  resolvePathDef context d = Throw e → e = TypeError.
Proof.
  unfold resolvePathDef. case_bool_decide; [apply getPathValue_throws|].
  destruct (_ && _); [|discriminate].
  destruct (getPathValue _ _) as [v|e'] eqn:Hp; simpl.
  - destruct (truthy _); [apply formatValue_throws | discriminate].
  - intros [= ->]. by eapply getPathValue_throws.
Qed.

Lemma applyFormat_throws entry v e : applyFormat entry v = Throw e → e = TypeError.
Proof.
  unfold applyFormat. destruct (truthy _); [apply formatValue_throws | discriminate].
Qed.

Lemma buildFromPaths_throws paths joiner context e :
  buildFromPaths paths joiner context = Throw e → e = TypeError.
Proof.
  unfold buildFromPaths. destruct paths; try congruence.
  destruct (mapM _ _) as [k|e'] eqn:Hm; simpl.
  - by case_bool_decide.
  - intros [= ->]. apply mapM_throws in Hm as (d & _ & Hd).
    by eapply resolvePathDef_throws.
Qed.

Lemma resolveCheckbox_throws v entry e :
  resolveCheckbox v entry = Throw e → e = TypeError.
Proof.
  unfold resolveCheckbox. destruct (negb _); [discriminate|].
  destruct (_ && _); [|discriminate].
  destruct (getProp entry "truthyValues"); try congruence.
  unfold lowerCaseAll. destruct (mapM _ _) as [k|e'] eqn:Hm; simpl; [discriminate|].
  intros [= ->]. apply mapM_throws in Hm as (d & _ & Hd).
  destruct d; congruence.
Qed.

Lemma baseValue_throws entry context e :
  baseValue entry context = Throw e → e = TypeError.
Proof.
  unfold baseValue. destruct (truthy _); [apply buildFromPaths_throws|].
  destruct (truthy _); [apply getPathValue_throws | discriminate].
Qed.

Lemma resolveEntry_throws entry context e :
  resolveEntry entry context = Throw e → e = TypeError.
Proof.
  unfold resolveEntry. destruct (nullish _); [discriminate|].
  case_bool_decide; [apply getPathValue_throws|].
  case_bool_decide; [discriminate|].
  destruct (negb _); [discriminate|].
  destruct (baseValue _ _) as [b|e'] eqn:Hb; simpl.
  - destruct (applyFormat _ _) as [formatted|e'] eqn:Hf; simpl.
    + destruct (strict_eq _ _); [apply resolveCheckbox_throws|].
      by destruct (strict_eq _ _).
    + intros [= ->]. by eapply applyFormat_throws.
  - intros [= ->]. by eapply baseValue_throws.
Qed.

Lemma forEach_throws context fields output e :
  forEach context fields output = Throw e → e = TypeError.
Proof.
  revert output. induction fields as [|field fields IH]; intros output; simpl; [discriminate|].
  unfold addField at 1.
  destruct (resolveEntry _ _) as [v|e'] eqn:Hv; simpl; [apply IH|].
  intros [= ->]. by eapply resolveEntry_throws.
Qed.

(** *** C1: the explicit value *)

(** C1 (as amended).  For every structured entry whose [value] key holds a
    value other than [undefined] -- [null], [false], [0] and the empty string
    included -- [resolveEntry] returns that value unchanged, whatever the
    other keys of the entry and whatever the context: the result is [Ok v]
    even where a path lookup, a [paths] concatenation or a checkbox rule of
    the same entry would raise. *)
Theorem resolveEntry_value_short_circuit ref props context v :
  lookup_prop "value" props = Some v →
  v ≠ VUndefined →
  resolveEntry (VObj ref props) context = Ok v.
Proof.
  intros Hv Hdef. unfold resolveEntry, getProp. simpl. rewrite Hv. simpl.
  apply is_undefined_false in Hdef. by rewrite Hdef.
Qed.

(** *** C2: the string shorthand *)

(** C2 (as amended).  For every non-empty string entry [s] and every
    context, the string entry returns a value [v], the structured entry
    [{path: s}] returns [v] with a string result trimmed, and the structured
    entry [{path: s, trim: false}] returns [v] itself. *)
Theorem resolveEntry_string_shorthand ref s context :
  s ≠ "" →
  ∃ v, resolveEntry (VStr s) context = Ok v
       ∧ resolveEntry (VObj ref [("path", VStr s)]) context = Ok (onString trim v)
       ∧ resolveEntry (VObj ref [("path", VStr s); ("trim", VBool false)]) context = Ok v.
Proof.
  intros Hs.
  assert (negb (bool_decide (s = "")) = true) as Ht by by case_bool_decide.
  exists (if truthy context then walk (split_dot s) context else VUndefined).
  assert (getPathValue context (VStr s)
          = Ok (if truthy context then walk (split_dot s) context else VUndefined)) as Hp.
  { rewrite getPathValue_string. simpl. rewrite Ht. by rewrite andb_true_r. }
  split; [|split].
  - done.
  - unfold resolveEntry, baseValue, getProp. simpl. rewrite Ht, Hp. simpl.
    unfold applyTrim, applySuffix, applyPrefix, applyFormat, applyDefault, applyCase, getProp.
    simpl. by rewrite andb_false_r.
  - unfold resolveEntry, baseValue, getProp. simpl. rewrite Ht, Hp. simpl.
    unfold applyTrim, applySuffix, applyPrefix, applyFormat, applyDefault, applyCase, getProp.
    simpl. by rewrite andb_false_r.
Qed.

(** *** C3: the configuration error *)

(** C3 (as amended).  [buildFieldValues] raises the configuration error,
    with no output, when the mapping definition is falsy or its [typeof] is
    not ['object'], and only then: the context is not inspected, so a
    missing context raises no configuration error. *)
Theorem buildFieldValues_config_error mappingConfig context :
  (truthy mappingConfig = false ∨ typeof mappingConfig ≠ TObject →
   buildFieldValues mappingConfig context
   = Throw (Error "Mapping config must be an object."))
  ∧ (∀ message, buildFieldValues mappingConfig context = Throw (Error message) →
     truthy mappingConfig = false ∨ typeof mappingConfig ≠ TObject).
Proof.
  unfold buildFieldValues. split.
  - intros [-> | Hty]; [done|]. rewrite (bool_decide_eq_true_2 _ Hty).
    by rewrite orb_true_r.
  - intros message. destruct (truthy mappingConfig); [|by left]. simpl.
    case_bool_decide; [by right|].
    intros Hthrow. by apply forEach_throws in Hthrow.
Qed.

(** *** C4: re-resolving a checkbox *)


(** *** C6: multi-path concatenation without a contribution *)

Lemma contributes_false v :
  v = VNull ∨ v = VUndefined ∨ v = VStr "" → contributes v = false.
Proof. by intros [-> | [-> | ->]]. Qed.

Lemma filter_none {A} (f : A → bool) l :
  Forall (λ a, f a = false) l → List.filter f l = [].
Proof. induction 1 as [|a l Ha _ IH]; simpl; [done|]. by rewrite Ha. Qed.

(** C6.  For every sequence of path definitions whose resolutions against
    the context are all [null], [undefined] or the empty string, and every
    joiner, [buildFromPaths] returns [null] (and so never the empty
    string). *)
Theorem buildFromPaths_no_contribution ref pathDefs joiner context :
  Forall (λ d, ∃ v, resolvePathDef context d = Ok v
                    ∧ (v = VNull ∨ v = VUndefined ∨ v = VStr "")) pathDefs →
  buildFromPaths (VArr ref pathDefs) joiner context = Ok VNull.
Proof.
  intros Hall. unfold buildFromPaths.
  destruct (mapM_returns (resolvePathDef context) (λ v, contributes v = false) pathDefs)
    as (resolved & -> & Hnone).
  { eapply Forall_impl; [exact Hall|]. intros d (v & Hv & Hempty).
    exists v. split; [done | by apply contributes_false]. }
  simpl. by rewrite (filter_none _ _ Hnone).
Qed.

(** *** C9: what the formatter passes through *)

Lemma strict_eq_VStr_false v s : v ≠ VStr s → strict_eq v (VStr s) = false.
Proof.
  intros Hne. destruct (strict_eq v (VStr s)) eqn:Heq; [|done].
  by apply strict_eq_VStr in Heq.
Qed.

Lemma dateOf_printable v : printable v = true → ∃ time, dateOf v = Ok time.
Proof.
  intros Hv. destruct v; simpl; eauto.
  - simpl in Hv. rewrite Hv. eauto.
  - simpl in Hv. rewrite Hv. eauto.
Qed.

Lemma formatValue_printable v format :
  printable v = true → ∃ r, formatValue v format = Ok r.
Proof.
  intros [time Htime]%dateOf_printable. unfold formatValue, formatDate. rewrite Htime.
  simpl. destruct (_ || _); [eauto|]. repeat (destruct (strict_eq format _); eauto).
Qed.

(** C9 (as amended).  For every value and every format: [formatValue]
    returns the value unchanged, raising nothing, when the value is [null],
    [undefined] or the empty string, or the format is not one of the two
    recognised names; under any format it returns the value unchanged when
    the date the host builds from the value is invalid (its time value is
    [NaN]); and it raises nothing on a value that has a primitive form. *)
Theorem formatValue_passes_through v format :
  (nullish v = true ∨ v = VStr ""
   ∨ (format ≠ VStr "DATE_DDMMYYYY" ∧ format ≠ VStr "DATE_ISO") →
   formatValue v format = Ok v)
  ∧ (dateOf v = Ok None → formatValue v format = Ok v)
  ∧ (printable v = true → ∃ r, formatValue v format = Ok r).
Proof.
  unfold formatValue, formatDate. split; [|split].
  - intros [Hnull | [-> | [Hne1 Hne2]]].
    + by destruct v.
    + done.
    + rewrite (strict_eq_VStr_false _ _ Hne1), (strict_eq_VStr_false _ _ Hne2).
      by destruct (_ || _).
  - intros ->. simpl.
    by repeat destruct (strict_eq _ _); destruct (is_undefined v).
  - apply formatValue_printable.
Qed.

(** *** C5: what the output holds *)

(** The loop of [buildFieldValues]: over fields with distinct names, each
    field resolves, a field with a [null] or [undefined] value and the field
    named ["__proto__"] leave their key as it was, any other value is stored,
    and no other key is touched. *)
Lemma forEach_spec context fields output0 output :
  forEach context fields output0 = Ok output →
  NoDup fields.*1 →
  (∀ k e, (k, e) ∈ fields →
     ∃ v, resolveEntry e context = Ok v
          ∧ output !! k = if nullish v || bool_decide (k = "__proto__")
                          then output0 !! k else Some v)
  ∧ (∀ k, k ∉ fields.*1 → output !! k = output0 !! k).
Proof.
  revert output0. induction fields as [|[k0 e0] fields IH]; intros output0; simpl.
  - intros [= ->] _. split; [|done]. intros k e Hin. by apply elem_of_nil in Hin.
  - unfold addField at 1. simpl.
    destruct (resolveEntry e0 context) as [v0|] eqn:Hv0; simpl; [|discriminate].
    rewrite defined_not_null. intros Hrest Hnodup.
    apply NoDup_cons in Hnodup as [Hk0 Hnodup].
    destruct (IH _ Hrest Hnodup) as [Hin Hout].
    assert (∀ k, k ≠ k0 →
              (if negb (nullish v0)
               then if bool_decide (k0 = "__proto__") then output0
                    else <[k0:=v0]> output0
               else output0) !! k
              = output0 !! k) as Hother.
    { intros k Hk. destruct (nullish v0); simpl; [done|].
      case_bool_decide; [done|]. by rewrite lookup_insert_ne. }
    split.
    + intros k e [[= -> ->] | Hke]%elem_of_cons.
      * exists v0. split; [done|]. rewrite (Hout _ Hk0).
        destruct (nullish v0); simpl; [done|].
        case_bool_decide; [done|]. by rewrite lookup_insert_eq.
      * destruct (Hin _ _ Hke) as (v & Hv & Hlook). exists v. split; [done|].
        rewrite Hlook. destruct (nullish v || bool_decide (k = "__proto__")); [|done].
        apply Hother. intros ->. apply Hk0.
        apply list_elem_of_fmap. by exists (k0, e).
    + intros k [Hne Hk]%not_elem_of_cons. rewrite (Hout _ Hk). by apply Hother.
Qed.

(** C5.  When [buildFieldValues] returns, every declared field has a resolved
    value, and the output holds the field exactly when that value is neither
    [null] nor [undefined] and the field is not named ["__proto__"]: then it
    holds that very value (the empty string included), otherwise the key is
    absent.  Keys that are not declared are absent.  So the rule of the
    specification holds of every field but one named ["__proto__"], which is
    dropped whatever it resolves to. *)
Theorem buildFieldValues_output mappingConfig context output :
  buildFieldValues mappingConfig context = Ok output →
  NoDup (entries mappingConfig).*1 →
  (∀ k e, (k, e) ∈ entries mappingConfig →
     ∃ v, resolveEntry e context = Ok v
          ∧ output !! k = if nullish v || bool_decide (k = "__proto__")
                          then None else Some v)
  ∧ (∀ k, k ∉ (entries mappingConfig).*1 → output !! k = None).
Proof.
  unfold buildFieldValues. destruct (_ || _); [discriminate|].
  intros Hloop Hnodup.
  destruct (forEach_spec _ _ _ _ Hloop Hnodup) as [Hin Hout].
  split.
  - intros k e Hke. destruct (Hin _ _ Hke) as (v & Hv & Hlook).
    exists v. split; [done|]. by rewrite Hlook, lookup_empty.
  - intros k Hk. by rewrite (Hout _ Hk), lookup_empty.
Qed.

(** *** C7: the case-insensitive radio lookup *)

Lemma lookup_prop_setProp key k v props :
  lookup_prop key (setProp k v props)
  = if bool_decide (k = key) then Some v else lookup_prop key props.
Proof.
  induction props as [|[k' w] props IH]; simpl.
  - done.
  - destruct (decide (k' = k)) as [-> | Hne].
    + rewrite bool_decide_eq_true_2 by done. simpl. by case_bool_decide.
    + rewrite (bool_decide_eq_false_2 _ Hne). simpl. rewrite IH.
      repeat case_bool_decide; congruence.
Qed.



Lemma getProp_setProp_ne ref key k v props :
  k ≠ key →
  getProp (VObj ref (setProp k v props)) key = getProp (VObj ref props) key.
Proof.
  intros Hne. unfold getProp. simpl.
  by rewrite lookup_prop_setProp, bool_decide_eq_false_2.
Qed.

(** Reads of the changed entry at the keys other than [key] are reads of the
    original one. *)
Ltac forget_setProp key :=
  repeat match goal with
    | |- context [getProp (VObj ?r (setProp key ?v ?props)) ?k] =>
        lazymatch k with
        | key => fail
        | _ => rewrite (getProp_setProp_ne r k key v props) by done
        end
    end.


(** *** C8: [paths] before [path] *)

(** C8 (as amended).  For every structured entry whose [paths] is truthy (any
    array, the empty one included), the base value is the multi-path
    concatenation of [paths], and [path] is not consulted: whatever [path]
    is set to, the entry resolves to the same result. *)
Theorem resolveEntry_paths_precedence ref props context :
  truthy (getProp (VObj ref props) "paths") = true →
  baseValue (VObj ref props) context
  = buildFromPaths (getProp (VObj ref props) "paths")
      (getProp (VObj ref props) "join") context
  ∧ ∀ p, resolveEntry (VObj ref (setProp "path" p props)) context
         = resolveEntry (VObj ref props) context.
Proof.
  intros Hpaths. split.
  - unfold baseValue. by rewrite Hpaths.
  - intros p.
    unfold resolveEntry, baseValue, applyTrim, applySuffix, applyPrefix, applyFormat,
      applyDefault, applyCase, resolveCheckbox, resolveRadio, normalizedMap, mapEntries.
    cbn [nullish typeof]. forget_setProp "path". by rewrite Hpaths.
Qed.

(** *** C10: checkbox entries *)

Lemma resolveEntry_checkbox ref props context :
  getProp (VObj ref props) "type" = VStr "checkbox" →
  getProp (VObj ref props) "value" = VUndefined →
  resolveEntry (VObj ref props) context
  = base ← baseValue (VObj ref props) context;
    formatted ← applyFormat (VObj ref props) base;
    resolveCheckbox
      (applyTrim (VObj ref props)
         (applySuffix (VObj ref props) (applyPrefix (VObj ref props) formatted)))
      (VObj ref props).
Proof. intros Htype Hvalue. unfold resolveEntry. by rewrite Htype, Hvalue. Qed.

Lemma resolveCheckbox_boolean v entry :
  resolveCheckbox v entry = Throw TypeError
  ∨ ∃ b, resolveCheckbox v entry = Ok (VBool b).
Proof.
  destruct (resolveCheckbox v entry) as [r|e] eqn:Hr.
  - right. revert Hr. unfold resolveCheckbox.
    destruct (negb _); [intros [= <-]; eauto|].
    destruct (_ && _); [|intros [= <-]; eauto].
    destruct (getProp entry "truthyValues"); try discriminate.
    destruct (lowerCaseAll _); simpl; [intros [= <-]; eauto | discriminate].
  - left. by rewrite (resolveCheckbox_throws _ _ _ Hr).
Qed.

(** A checkbox entry raises a [TypeError] or resolves to a boolean. *)
Lemma resolveEntry_checkbox_cases ref props context :
  getProp (VObj ref props) "type" = VStr "checkbox" →
  getProp (VObj ref props) "value" = VUndefined →
  resolveEntry (VObj ref props) context = Throw TypeError
  ∨ ∃ b, resolveEntry (VObj ref props) context = Ok (VBool b).
Proof.
  intros Htype Hvalue. rewrite resolveEntry_checkbox by done.
  destruct (baseValue _ _) as [base|e] eqn:Hbase; simpl.
  - destruct (applyFormat _ _) as [formatted|e] eqn:Hformat; simpl.
    + apply resolveCheckbox_boolean.
    + left. by rewrite (applyFormat_throws _ _ _ Hformat).
  - left. by rewrite (baseValue_throws _ _ _ Hbase).
Qed.

Lemma lowerCaseAll_strings elems :
  forallb isString elems = true → ∃ lowered, lowerCaseAll elems = Ok lowered.
Proof.
  unfold lowerCaseAll. induction elems as [|x elems IH]; simpl; [eauto|].
  intros [Hx Hrest]%andb_true_iff. destruct (IH Hrest) as [lowered ->].
  destruct x; try discriminate. simpl. eauto.
Qed.

Lemma resolveCheckbox_wellFormed v entry :
  wellFormed entry = true → ∃ b, resolveCheckbox v entry = Ok (VBool b).
Proof.
  unfold wellFormed. intros [_ Htv]%andb_true_iff. unfold resolveCheckbox.
  destruct (negb (is_undefined _)); [eauto|].
  destruct (truthy (getProp entry "truthyValues")); simpl in *; [|eauto].
  destruct (negb (nullish v)); [|eauto].
  destruct (getProp entry "truthyValues"); try discriminate.
  destruct (lowerCaseAll_strings _ Htv) as [lowered ->]. simpl. eauto.
Qed.

(** What a path reaches in a plain value is plain, and has a primitive
    form. *)
Lemma plain_printable v : plain v = true → printable v = true.
Proof.
  revert v. fix IH 1. intros [| | | | |r elems|r props|]; simpl; try done.
  - induction elems as [|x elems IHelems]; simpl; [done|].
    intros [Hx Hrest]%andb_true_iff. rewrite (IH x Hx). by apply IHelems.
  - by intros [? _]%andb_true_iff.
Qed.

Lemma lookup_prop_plain key props w :
  forallb (λ kv, match kv with (_, x) => plain x end) props = true →
  lookup_prop key props = Some w → plain w = true.
Proof.
  induction props as [|[k x] props IH]; simpl; [done|].
  intros [Hx Hrest]%andb_true_iff. case_bool_decide; [congruence | by apply IH].
Qed.

Lemma string_chars_plain s i w : string_chars s !! i = Some w → plain w = true.
Proof.
  revert i. induction s as [|c s IH]; intros [|i]; simpl; try done.
  - by intros [= <-].
  - apply IH.
Qed.

Lemma ownProp_plain o key w :
  plain o = true → ownProp o key = Some w → plain w = true.
Proof.
  destruct o as [| | | |s|r elems|r props|]; simpl; try done.
  - intros _. case_bool_decide; [by intros [= <-]|].
    destruct (array_index _ _) as [i|]; simpl; [apply string_chars_plain | done].
  - intros Hall. case_bool_decide; [by intros [= <-]|].
    destruct (array_index _ _) as [i|]; simpl; [|done].
    intros Hw%list_elem_of_lookup_2%list_elem_of_In.
    rewrite forallb_forall in Hall. by apply Hall.
  - intros [_ Hall]%andb_true_iff. by apply lookup_prop_plain.
Qed.

Lemma walk_plain segments v : plain v = true → plain (walk segments v) = true.
Proof.
  revert v. induction segments as [|segment rest IH]; intros v Hv; simpl; [done|].
  destruct (truthy v); [|done].
  destruct (ownProp v segment) as [next|] eqn:Hnext; [|done].
  apply IH. by eapply ownProp_plain.
Qed.

Lemma getPathValue_plain source p v :
  plain source = true → getPathValue source p = Ok v → plain v = true.
Proof.
  intros Hsource. unfold getPathValue. destruct (_ || _); [by intros [= <-]|].
  destruct p; try discriminate. intros [= <-]. by apply walk_plain.
Qed.

Lemma resolvePathDef_pathDefOk context d :
  plain context = true → pathDefOk d = true → ∃ v, resolvePathDef context d = Ok v.
Proof.
  unfold pathDefOk, resolvePathDef. intros Hcontext Hd.
  case_bool_decide as Hty.
  - apply getPathValue_pathOk. unfold pathOk. rewrite bool_decide_eq_true_2 by done.
    apply orb_true_r.
  - simpl in Hd. destruct (_ && _); [|eauto].
    destruct (getPathValue_pathOk context _ Hd) as [v Hv]. rewrite Hv. simpl.
    destruct (truthy (getProp d "format")); [|eauto].
    apply formatValue_printable, plain_printable. by eapply getPathValue_plain.
Qed.

Lemma baseValue_wellFormed entry context :
  wellFormed entry = true → plain context = true →
  ∃ v, baseValue entry context = Ok v ∧ plain v = true.
Proof.
  unfold wellFormed. intros [[Hpaths Hpath]%andb_true_iff _]%andb_true_iff Hcontext.
  unfold baseValue. destruct (truthy (getProp entry "paths")); simpl in Hpaths.
  - destruct (getProp entry "paths") as [| | | | |r ds| |]; try discriminate.
    unfold buildFromPaths.
    destruct (mapM_returns (resolvePathDef context) (λ _, True) ds) as (resolved & -> & _).
    { apply Forall_forall. intros d Hd.
      rewrite forallb_forall in Hpaths.
      destruct (resolvePathDef_pathDefOk context d) as [v Hv]; [done | |eauto].
      apply Hpaths. by apply list_elem_of_In. }
    simpl. case_bool_decide; eauto.
  - destruct (truthy (getProp entry "path")); [|eauto].
    destruct (getPathValue_pathOk context _ Hpath) as [v Hv].
    exists v. split; [done|]. by eapply getPathValue_plain.
Qed.

(** C10 (as amended).  For every structured entry whose [type] is
    ["checkbox"] and whose [value] is undefined, and every context:
    [resolveEntry] raises a [TypeError] or returns a strict boolean, never
    [null] or [undefined]; it returns a boolean whenever the entry is well
    formed ([path] falsy or a string, [paths] falsy or an array of strings
    and sub-entries with such a [path], [truthyValues] falsy or an array of
    strings) and every value of the context and of the entry has a primitive
    form; the [default] key does not influence the result; and when
    [buildFieldValues] returns, the field of such an entry, if it is not
    named ["__proto__"], is present in the output with a boolean. *)
Theorem resolveEntry_checkbox_boolean ref props context :
  getProp (VObj ref props) "type" = VStr "checkbox" →
  getProp (VObj ref props) "value" = VUndefined →
  (resolveEntry (VObj ref props) context = Throw TypeError
   ∨ ∃ b, resolveEntry (VObj ref props) context = Ok (VBool b))
  ∧ (wellFormed (VObj ref props) = true →
     plain context = true →
     plain (VObj ref props) = true →
     ∃ b, resolveEntry (VObj ref props) context = Ok (VBool b))
  ∧ (∀ d, resolveEntry (VObj ref (setProp "default" d props)) context
          = resolveEntry (VObj ref props) context)
  ∧ (∀ mappingConfig output k,
       buildFieldValues mappingConfig context = Ok output →
       NoDup (entries mappingConfig).*1 →
       (k, VObj ref props) ∈ entries mappingConfig →
       k ≠ "__proto__" →
       ∃ b, output !! k = Some (VBool b)).
Proof.
  intros Htype Hvalue.
  pose proof (resolveEntry_checkbox_cases _ _ context Htype Hvalue) as Hbool.
  split; [done|]. split; [|split].
  - intros Hwf Hcontext _. rewrite resolveEntry_checkbox by done.
    destruct (baseValue_wellFormed _ context Hwf Hcontext) as (base & -> & Hbase). simpl.
    unfold applyFormat. destruct (truthy (getProp _ "format")); simpl.
    + destruct (formatValue_printable base (getProp (VObj ref props) "format"))
        as [formatted ->]; [by apply plain_printable|].
      simpl. by apply resolveCheckbox_wellFormed.
    + by apply resolveCheckbox_wellFormed.
  - intros d.
    unfold resolveEntry, baseValue, applyTrim, applySuffix, applyPrefix, applyFormat,
      resolveCheckbox.
    cbn [nullish typeof]. forget_setProp "default". by rewrite Htype.
  - intros mappingConfig output k Hbuild Hnodup Hin Hk.
    unfold buildFieldValues in Hbuild. destruct (_ || _); [discriminate|].
    destruct (forEach_spec _ _ _ _ Hbuild Hnodup) as [Hfields _].
    destruct (Hfields _ _ Hin) as (v & Hv & Hlook).
    destruct Hbool as [Hthrow | [b Hb]]; [congruence|].
    exists b. rewrite Hlook, (bool_decide_eq_false_2 _ Hk).
    by replace v with (VBool b) by congruence.
Qed.

End properties.

(** ** The properties at concrete inputs *)

Section instances.
Local Existing Instance Utc.runtime.

(** C1: the short circuit on an entry whose other keys would raise. *)
Lemma resolveEntry_value_short_circuit_witness :
  resolveEntry
    (VObj 3 [("path", VNum (Finite 5)); ("type", VStr "checkbox");
             ("truthyValues", VStr "yes"); ("value", VBool false)]) jane
  = Ok (VBool false).
Proof. apply resolveEntry_value_short_circuit; [reflexivity | discriminate]. Defined.

(** C1 as stated fails: the [value] key is present and holds [undefined],
    and the entry resolves through its [path]. *)
Lemma resolveEntry_value_undefined :
  lookup_prop "value" [("value", VUndefined); ("path", VStr "traveler.firstName")]
  = Some VUndefined
  ∧ resolveEntry
      (VObj 3 [("value", VUndefined); ("path", VStr "traveler.firstName")]) jane
    = Ok (VStr "Jane").
Proof. split; vm_compute; reflexivity. Qed.

Lemma resolveEntry_string_shorthand_witness :
  ∃ v, resolveEntry (VStr "traveler.firstName") jane = Ok v
       ∧ resolveEntry (VObj 3 [("path", VStr "traveler.firstName")]) jane
         = Ok (onString trim v)
       ∧ resolveEntry
           (VObj 3 [("path", VStr "traveler.firstName"); ("trim", VBool false)]) jane
         = Ok v.
Proof. apply resolveEntry_string_shorthand. discriminate. Defined.

(** C2 as stated fails: the structured entry trims, the string entry does
    not; and on the empty path the one gives [undefined], the other
    [null]. *)
Lemma resolveEntry_string_untrimmed :
  resolveEntry (VStr "a") (VObj 1 [("a", VStr " x ")]) = Ok (VStr " x ")
  ∧ resolveEntry (VObj 3 [("path", VStr "a")]) (VObj 1 [("a", VStr " x ")])
    = Ok (VStr "x")
  ∧ resolveEntry (VStr "") jane = Ok VUndefined
  ∧ resolveEntry (VObj 3 [("path", VStr "")]) jane = Ok VNull.
Proof. repeat split; vm_compute; reflexivity. Qed.

Lemma buildFieldValues_config_error_witness :
  buildFieldValues (VStr "austria") jane
  = Throw (Error "Mapping config must be an object.").
Proof.
  apply (proj1 (buildFieldValues_config_error (VStr "austria") jane)).
  right. discriminate.
Defined.

(** C3 as stated fails: with the context missing the builder returns an
    output; and an array passes for a mapping definition. *)
Lemma buildFieldValues_missing_context :
  buildFieldValues
    (VObj 1 [("greeting", VObj 2 [("value", VStr "hello")]);
             ("name", VStr "traveler.firstName")]) VUndefined
  = Ok {[ "greeting" := VStr "hello" ]}
  ∧ buildFieldValues (VArr 1 [VStr "traveler.firstName"]) jane
    = Ok {[ "0" := VStr "Jane" ]}.
Proof. split; vm_compute; reflexivity. Qed.



Lemma buildFieldValues_output_witness :
  (∀ k e,
     (k, e) ∈ entries (VObj 3 [("name", VObj 4 [("value", VStr "")]);
                               ("visa", VStr "visa.number");
                               ("__proto__", VObj 5 [("value", VStr "x")])]) →
     ∃ v, resolveEntry e jane = Ok v
          ∧ ({[ "name" := VStr "" ]} : gmap string value) !! k
            = if nullish v || bool_decide (k = "__proto__") then None else Some v)
  ∧ (∀ k,
       k ∉ (entries (VObj 3 [("name", VObj 4 [("value", VStr "")]);
                             ("visa", VStr "visa.number");
                             ("__proto__", VObj 5 [("value", VStr "x")])])).*1 →
       ({[ "name" := VStr "" ]} : gmap string value) !! k = None).
Proof.
  apply buildFieldValues_output.
  - vm_compute. reflexivity.
  - apply (bool_decide_unpack _). vm_compute. exact I.
Defined.

(** C5 as stated fails on a field named ["__proto__"]: it resolves to "x",
    neither [null] nor [undefined], and the output has no such key. *)
Lemma buildFieldValues_proto_dropped :
  resolveEntry (VObj 5 [("value", VStr "x")]) jane = Ok (VStr "x")
  ∧ buildFieldValues
      (VObj 3 [("__proto__", VObj 5 [("value", VStr "x")]);
               ("n", VStr "traveler.lastName")]) jane
    = Ok {[ "n" := VStr "Doe" ]}
  ∧ ({[ "n" := VStr "Doe" ]} : gmap string value) !! "__proto__" = None.
Proof. repeat split; vm_compute; reflexivity. Qed.

Lemma buildFromPaths_no_contribution_witness :
  buildFromPaths
    (VArr 3 [VStr "traveler.middleName";
             VObj 4 [("path", VStr "visa.issued"); ("format", VStr "DATE_ISO")];
             VNum (Finite 7)])
    (VStr " ") jane
  = Ok VNull.
Proof.
  apply buildFromPaths_no_contribution.
  apply List.Forall_cons; [|apply List.Forall_cons; [|apply List.Forall_cons; [|apply List.Forall_nil]]].
  - exists VUndefined. split; [reflexivity | auto].
  - exists VUndefined. split; [reflexivity | auto].
  - exists VNull. split; [reflexivity | auto].
Defined.



Lemma resolveEntry_paths_precedence_witness :
  baseValue (VObj 3 [("paths", VArr 4 []); ("path", VStr "traveler.firstName")]) jane
  = buildFromPaths
      (getProp (VObj 3 [("paths", VArr 4 []); ("path", VStr "traveler.firstName")]) "paths")
      (getProp (VObj 3 [("paths", VArr 4 []); ("path", VStr "traveler.firstName")]) "join")
      jane
  ∧ ∀ p, resolveEntry
           (VObj 3 (setProp "path" p
                      [("paths", VArr 4 []); ("path", VStr "traveler.firstName")])) jane
         = resolveEntry
             (VObj 3 [("paths", VArr 4 []); ("path", VStr "traveler.firstName")]) jane.
Proof. apply resolveEntry_paths_precedence. reflexivity. Defined.

(** C8 as stated fails: [paths] is present and holds [null], and the entry
    resolves through [path]; without [path] it resolves to [null]. *)
Lemma resolveEntry_paths_null :
  lookup_prop "paths" [("paths", VNull); ("path", VStr "traveler.firstName")]
  = Some VNull
  ∧ resolveEntry
      (VObj 3 [("paths", VNull); ("path", VStr "traveler.firstName")]) jane
    = Ok (VStr "Jane")
  ∧ resolveEntry (VObj 3 [("paths", VNull)]) jane = Ok VNull.
Proof. repeat split; vm_compute; reflexivity. Qed.

Lemma formatValue_passes_through_witness :
  formatValue (VStr "next week") (VStr "DATE_ISO") = Ok (VStr "next week").
Proof.
  apply (proj1 (proj2 (formatValue_passes_through (VStr "next week") (VStr "DATE_ISO")))).
  reflexivity.
Defined.

(** C9 as stated fails.  The thirtieth of February is no date of the
    calendar (the day so numbered is the first of March), yet V8 makes a
    valid date of it and the value is rewritten; and an object with an own
    [toString] property, which has no primitive form, makes [formatValue]
    raise. *)
Lemma formatValue_not_a_calendar_date :
  Utc.civilFromDays (Utc.daysFromCivil 2024 2 30) = (2024, 3, 1)
  ∧ @formatValue V8.runtime (VStr "2024-02-30") (VStr "DATE_ISO")
    = Ok (VStr "2024-03-01")
  ∧ formatValue (VObj 1 [("toString", VNull)]) (VStr "DATE_ISO") = Throw TypeError.
Proof. repeat split; vm_compute; reflexivity. Qed.

Lemma resolveEntry_checkbox_boolean_witness :
  (resolveEntry (VObj 3 [("type", VStr "checkbox"); ("path", VStr "traveler.firstName");
                         ("default", VStr "n/a")]) jane
   = Throw TypeError
   ∨ ∃ b, resolveEntry
            (VObj 3 [("type", VStr "checkbox"); ("path", VStr "traveler.firstName");
                     ("default", VStr "n/a")]) jane
          = Ok (VBool b))
  ∧ (wellFormed (VObj 3 [("type", VStr "checkbox"); ("path", VStr "traveler.firstName");
                         ("default", VStr "n/a")]) = true →
     plain jane = true →
     plain (VObj 3 [("type", VStr "checkbox"); ("path", VStr "traveler.firstName");
                    ("default", VStr "n/a")]) = true →
     ∃ b, resolveEntry
            (VObj 3 [("type", VStr "checkbox"); ("path", VStr "traveler.firstName");
                     ("default", VStr "n/a")]) jane
          = Ok (VBool b))
  ∧ (∀ d, resolveEntry
            (VObj 3 (setProp "default" d
                       [("type", VStr "checkbox"); ("path", VStr "traveler.firstName");
                        ("default", VStr "n/a")])) jane
          = resolveEntry
              (VObj 3 [("type", VStr "checkbox"); ("path", VStr "traveler.firstName");
                       ("default", VStr "n/a")]) jane)
  ∧ (∀ mappingConfig output k,
       buildFieldValues mappingConfig jane = Ok output →
       NoDup (entries mappingConfig).*1 →
       (k, VObj 3 [("type", VStr "checkbox"); ("path", VStr "traveler.firstName");
                   ("default", VStr "n/a")]) ∈ entries mappingConfig →
       k ≠ "__proto__" →
       ∃ b, output !! k = Some (VBool b)).
Proof. apply resolveEntry_checkbox_boolean; reflexivity. Defined.

(** C10 as stated fails: a checkbox entry with an explicit [value: null]
    resolves to [null], and its field is absent from the output. *)
Lemma resolveEntry_checkbox_null :
  resolveEntry (VObj 3 [("type", VStr "checkbox"); ("value", VNull)]) jane = Ok VNull
  ∧ buildFieldValues
      (VObj 4 [("agree", VObj 3 [("type", VStr "checkbox"); ("value", VNull)])]) jane
    = Ok ∅.
Proof. split; vm_compute; reflexivity. Qed.

End instances.

(** ** Further properties of the engine *)

Section string_facts.

Lemma append_cons c r s : String c r +:+ s = String c (r +:+ s).
Proof. reflexivity. Qed.

Lemma append_empty_r s : s +:+ "" = s.
Proof. induction s as [|c s IH]; [done|]. by rewrite append_cons, IH. Qed.

Lemma append_assoc s1 s2 s3 : (s1 +:+ s2) +:+ s3 = s1 +:+ (s2 +:+ s3).
Proof. induction s1 as [|c s1 IH]; [done|]. by rewrite !append_cons, IH. Qed.

Lemma split_dot_nonempty s : split_dot s ≠ [].
Proof.
  destruct s as [|c r]; simpl; [done|].
  destruct (Ascii.eqb c "."); [done|]. by destruct (split_dot r).
Qed.

(** Splitting at dots distributes over a dot. *)
Lemma split_dot_join p q :
  split_dot (p +:+ "." +:+ q) = (split_dot p ++ split_dot q)%list.
Proof.
  induction p as [|c p IH].
  - done.
  - rewrite append_cons. simpl. rewrite IH.
    destruct (Ascii.eqb c "."); [done|].
    pose proof (split_dot_nonempty p). by destruct (split_dot p).
Qed.

Lemma walk_undefined segments : walk segments VUndefined = VUndefined.
Proof. by destruct segments. Qed.

Lemma walk_falsy segments v :
  segments ≠ [] → truthy v = false → walk segments v = VUndefined.
Proof. intros Hne Hv. destruct segments; [done|]. simpl. by rewrite Hv. Qed.

Lemma walk_app l1 l2 v : walk (l1 ++ l2)%list v = walk l2 (walk l1 v).
Proof.
  revert v. induction l1 as [|seg l1 IH]; intros v; simpl; [done|].
  destruct (truthy v); [|by rewrite walk_undefined].
  destruct (ownProp v seg); [apply IH | by rewrite walk_undefined].
Qed.

Lemma lower_lower_ascii c : lower_ascii (lower_ascii c) = lower_ascii c.
Proof. by destruct c as [[] [] [] [] [] [] [] []]. Qed.

Lemma is_space_lower c : Ascii.is_space (lower_ascii c) = Ascii.is_space c.
Proof. by destruct c as [[] [] [] [] [] [] [] []]. Qed.

Lemma is_space_upper c : Ascii.is_space (upper_ascii c) = Ascii.is_space c.
Proof. by destruct c as [[] [] [] [] [] [] [] []]. Qed.

Lemma toLowerCase_idempotent s : toLowerCase (toLowerCase s) = toLowerCase s.
Proof.
  unfold toLowerCase.
  induction s as [|c s IH]; simpl; [done|]. by rewrite lower_lower_ascii, IH.
Qed.

Lemma map_string_empty f s : map_string f s = "" ↔ s = "".
Proof. by destruct s. Qed.

(** *** Reversal and trimming *)

Lemma rev_app_append s acc : String.rev_app s acc = String.rev s +:+ acc.
Proof.
  unfold String.rev. revert acc.
  induction s as [|c s IH]; intros acc; simpl; [done|].
  rewrite (IH (String c acc)), (IH (String c "")).
  by rewrite append_assoc.
Qed.

Lemma rev_cons c s : String.rev (String c s) = String.rev s +:+ String c "".
Proof. unfold String.rev at 1. simpl. apply rev_app_append. Qed.

Lemma rev_append s t : String.rev (s +:+ t) = String.rev t +:+ String.rev s.
Proof.
  induction s as [|c s IH].
  - by rewrite append_empty_r.
  - by rewrite append_cons, !rev_cons, IH, append_assoc.
Qed.

Lemma rev_involutive s : String.rev (String.rev s) = s.
Proof.
  induction s as [|c s IH]; [done|].
  by rewrite rev_cons, rev_append, IH.
Qed.

Lemma map_string_append f s t :
  map_string f (s +:+ t) = map_string f s +:+ map_string f t.
Proof. induction s as [|c s IH]; [done|]. rewrite !append_cons. simpl. by rewrite IH. Qed.

Lemma map_string_rev f s : map_string f (String.rev s) = String.rev (map_string f s).
Proof.
  induction s as [|c s IH]; [done|]. simpl.
  by rewrite !rev_cons, map_string_append, IH.
Qed.

Lemma trimStart_map f s :
  (∀ c, Ascii.is_space (f c) = Ascii.is_space c) →
  trimStart (map_string f s) = map_string f (trimStart s).
Proof.
  intros Hf. induction s as [|c s IH]; simpl; [done|].
  rewrite Hf. by destruct (Ascii.is_space c).
Qed.

Lemma trim_map f s :
  (∀ c, Ascii.is_space (f c) = Ascii.is_space c) →
  trim (map_string f s) = map_string f (trim s).
Proof.
  intros Hf. unfold trim.
  by rewrite trimStart_map, <- map_string_rev, trimStart_map, map_string_rev.
Qed.

Lemma trimStart_idempotent s : trimStart (trimStart s) = trimStart s.
Proof.
  induction s as [|c s IH]; simpl; [done|].
  destruct (Ascii.is_space c) eqn:Hc; [done|]. simpl. by rewrite Hc.
Qed.

(** What [trimStart] removes is whitespace, and it removes nothing more. *)
Lemma trimStart_split s : ∃ sp, blank sp = true ∧ s = sp +:+ trimStart s.
Proof.
  induction s as [|c s (sp & Hsp & Hs)]; simpl.
  - by exists "".
  - destruct (Ascii.is_space c) eqn:Hc.
    + exists (String c sp). simpl. rewrite Hc, Hsp. split; [done|].
      by rewrite append_cons, <- Hs.
    + by exists "".
Qed.

Lemma length_append s t :
  String.length (s +:+ t) = (String.length s + String.length t)%nat.
Proof. induction s as [|c s IH]; [done|]. rewrite append_cons. simpl. by rewrite IH. Qed.

Lemma trimStart_fixed_head c r :
  trimStart (String c r) = String c r ↔ Ascii.is_space c = false.
Proof.
  simpl. destruct (Ascii.is_space c); [|done]. split; [|done].
  intros Heq. destruct (trimStart_split r) as (sp & _ & Hr).
  assert (String.length (trimStart r) = S (String.length r)) as Hlen by by rewrite Heq.
  rewrite Hr in Hlen at 2. rewrite length_append in Hlen. lia.
Qed.

(** Trimming the end of a string keeps its start free of whitespace. *)
Lemma trimStart_rev_trimStart_rev t :
  trimStart t = t →
  trimStart (String.rev (trimStart (String.rev t)))
  = String.rev (trimStart (String.rev t)).
Proof.
  intros Ht.
  destruct (trimStart_split (String.rev t)) as (sp & _ & Hsplit).
  apply (f_equal String.rev) in Hsplit.
  rewrite rev_involutive, rev_append in Hsplit.
  destruct (String.rev (trimStart (String.rev t))) as [|c r]; [done|].
  rewrite append_cons in Hsplit. rewrite Hsplit in Ht.
  apply trimStart_fixed_head. by apply trimStart_fixed_head in Ht.
Qed.

Lemma trim_idempotent s : trim (trim s) = trim s.
Proof.
  unfold trim at 1.
  assert (trimStart (trim s) = trim s) as ->.
  { unfold trim. apply trimStart_rev_trimStart_rev, trimStart_idempotent. }
  unfold trim. by rewrite rev_involutive, trimStart_idempotent.
Qed.

Lemma trim_toLowerCase s : trim (toLowerCase s) = toLowerCase (trim s).
Proof. apply trim_map, is_space_lower. Qed.

Lemma trim_toUpperCase s : trim (toUpperCase s) = toUpperCase (trim s).
Proof. apply trim_map, is_space_upper. Qed.

End string_facts.

Section engine_properties.
Context {rt : Runtime}.

Ltac drop_setProp :=
  repeat match goal with
    | |- context [getProp (VObj ?r (setProp ?key ?v ?props)) ?k] =>
        rewrite (getProp_setProp_ne r k key v props) by done
    end.

Lemma strict_eq_VBool v b : strict_eq v (VBool b) = true ↔ v = VBool b.
Proof.
  destruct v; simpl; try (split; [discriminate | congruence]).
  rewrite bool_decide_eq_true. split; congruence.
Qed.

Lemma strict_eq_VBool_false v b : v ≠ VBool b → strict_eq v (VBool b) = false.
Proof.
  intros Hne. destruct (strict_eq v (VBool b)) eqn:Heq; [|done].
  by apply strict_eq_VBool in Heq.
Qed.

Lemma contributes_true v :
  contributes v = true ↔ v ≠ VNull ∧ v ≠ VUndefined ∧ v ≠ VStr "".
Proof.
  destruct v as [| | | |s| | |]; simpl; try (split; [by intros | done]);
    try (split; [done | intros (? & ? & ?); done]).
  unfold contributes. simpl. case_bool_decide; simpl.
  - subst. split; [done | intros (? & ? & ?); done].
  - split; [intros _; repeat split; congruence | done].
Qed.


(** *** X1: paths compose *)

(** X1.  Looking up [p.q] is looking up [p] and then [q] in the result, for
    non-empty [p] and [q]: in particular the lookup stops with [undefined] as
    soon as an intermediate value is missing or falsy. *)
Theorem getPathValue_compose source p q :
  p ≠ "" → q ≠ "" →
  getPathValue source (VStr (p +:+ "." +:+ q))
  = v ← getPathValue source (VStr p); getPathValue v (VStr q).
Proof.
  intros Hp Hq. rewrite !getPathValue_string.
  assert (truthy (VStr p) = true) as -> by (simpl; by case_bool_decide).
  assert (truthy (VStr (p +:+ "." +:+ q)) = true) as ->.
  { destruct p; [done|]. by rewrite append_cons. }
  rewrite !andb_true_r. destruct (truthy source) eqn:Hsrc; simpl.
  - rewrite getPathValue_string.
    assert (truthy (VStr q) = true) as -> by (simpl; by case_bool_decide).
    rewrite andb_true_r, split_dot_join, walk_app.
    destruct (truthy (walk (split_dot p) source)) eqn:Hmid; [done|].
    f_equal. apply walk_falsy; [apply split_dot_nonempty | done].
  - by rewrite getPathValue_string.
Qed.

(** *** X2, X3: what a concatenation returns *)







(** *** X4: a default fills the field *)

(** X4.  An entry without [type] and [value] whose [default] is defined
    resolves to that default or to a value that is neither [undefined],
    [null] nor the empty string: the default replaces every blank result.
    So with a default that is itself not blank the entry never resolves to a
    blank; a default of [null] or the empty string is returned as it is. *)
Theorem resolveEntry_default_fills ref props context r :
  getProp (VObj ref props) "value" = VUndefined →
  getProp (VObj ref props) "type" ≠ VStr "checkbox" →
  getProp (VObj ref props) "type" ≠ VStr "radio" →
  getProp (VObj ref props) "default" ≠ VUndefined →
  resolveEntry (VObj ref props) context = Ok r →
  (r = getProp (VObj ref props) "default" ∨ isBlank r = false)
  ∧ (isBlank (getProp (VObj ref props) "default") = false → isBlank r = false).
Proof.
  intros Hvalue Hcheck Hradio Hdefault. unfold resolveEntry.
  cbn [nullish typeof]. rewrite Hvalue.
  rewrite (strict_eq_VStr_false _ _ Hcheck), (strict_eq_VStr_false _ _ Hradio).
  destruct (baseValue _ _) as [base|]; simpl; [|discriminate].
  destruct (applyFormat _ _) as [formatted|]; simpl; [|discriminate].
  intros [= <-]. unfold applyDefault.
  apply is_undefined_false in Hdefault. rewrite Hdefault. simpl. rewrite andb_true_r.
  set (v := applyCase _ _). fold (isBlank v).
  destruct (isBlank v) eqn:Hblank; [by split; [left|] | by split; [right|]].
Qed.

(** *** X5, X6: the case flags *)

(** X5.  On a checkbox or radio entry the [uppercase] and [lowercase] flags
    have no effect: the entry resolves to the same result whatever they
    hold. *)
Theorem resolveEntry_typed_ignores_case ref props context u l :
  getProp (VObj ref props) "type" = VStr "checkbox"
  ∨ getProp (VObj ref props) "type" = VStr "radio" →
  resolveEntry (VObj ref (setProp "uppercase" u (setProp "lowercase" l props))) context
  = resolveEntry (VObj ref props) context.
Proof.
  intros Htype.
  unfold resolveEntry, baseValue, applyTrim, applySuffix, applyPrefix, applyFormat,
    resolveCheckbox, resolveRadio, normalizedMap, mapEntries.
  cbn [nullish typeof]. drop_setProp.
  by destruct Htype as [-> | ->].
Qed.

Lemma lowerCased_applyCase entry v :
  truthy (getProp entry "lowercase") = true → lowerCased (applyCase entry v).
Proof.
  intros Hl. unfold applyCase. rewrite Hl.
  destruct (if truthy (getProp entry "uppercase") then onString toUpperCase v else v);
    simpl; try done.
  apply toLowerCase_idempotent.
Qed.

(** X6.  When [lowercase] is truthy, an entry without [type] and [value]
    never resolves to a string that holds one of the letters A-Z, the
    default apart, whatever [uppercase] holds: with both flags set the
    result is lower-cased, [lowercase] being applied last. *)
Theorem resolveEntry_lowercase_wins ref props context s :
  getProp (VObj ref props) "value" = VUndefined →
  getProp (VObj ref props) "type" ≠ VStr "checkbox" →
  getProp (VObj ref props) "type" ≠ VStr "radio" →
  truthy (getProp (VObj ref props) "lowercase") = true →
  resolveEntry (VObj ref props) context = Ok (VStr s) →
  VStr s = getProp (VObj ref props) "default" ∨ toLowerCase s = s.
Proof.
  intros Hvalue Hcheck Hradio Hl. unfold resolveEntry.
  cbn [nullish typeof]. rewrite Hvalue.
  rewrite (strict_eq_VStr_false _ _ Hcheck), (strict_eq_VStr_false _ _ Hradio).
  destruct (baseValue _ _) as [base|]; simpl; [|discriminate].
  destruct (applyFormat _ _) as [formatted|]; simpl; [|discriminate].
  set (v := applyCase _ _).
  assert (lowerCased v) as Hv by by apply lowerCased_applyCase.
  unfold applyDefault. destruct (_ && _); intros [= Hs]; [by left | right].
  by rewrite Hs in Hv.
Qed.

(** *** X7: results are trimmed *)

Lemma trimmed_trim v : trimmed (onString trim v).
Proof. destruct v; simpl; try done. apply trim_idempotent. Qed.

Lemma trimmed_applyCase entry v : trimmed v → trimmed (applyCase entry v).
Proof.
  unfold applyCase. intros Hv.
  assert (trimmed (if truthy (getProp entry "uppercase")
                   then onString toUpperCase v else v)) as Hup.
  { destruct (truthy _); [|done]. destruct v; simpl in *; try done.
    by rewrite trim_toUpperCase, Hv. }
  destruct (truthy (getProp entry "lowercase")); [|done].
  destruct (if truthy _ then _ else _); simpl in *; try done.
  by rewrite trim_toLowerCase, Hup.
Qed.

(** X7.  An entry without [type] and [value], unless it says [trim: false],
    never resolves to a string with leading or trailing whitespace, the
    default apart: a string result is its own trim (a prefix or suffix is
    trimmed with it) or it is the entry's [default]. *)
Theorem resolveEntry_trimmed ref props context s :
  getProp (VObj ref props) "value" = VUndefined →
  getProp (VObj ref props) "type" ≠ VStr "checkbox" →
  getProp (VObj ref props) "type" ≠ VStr "radio" →
  getProp (VObj ref props) "trim" ≠ VBool false →
  resolveEntry (VObj ref props) context = Ok (VStr s) →
  VStr s = getProp (VObj ref props) "default" ∨ trim s = s.
Proof.
  intros Hvalue Hcheck Hradio Htrim. unfold resolveEntry.
  cbn [nullish typeof]. rewrite Hvalue.
  rewrite (strict_eq_VStr_false _ _ Hcheck), (strict_eq_VStr_false _ _ Hradio).
  destruct (baseValue _ _) as [base|]; simpl; [|discriminate].
  destruct (applyFormat _ _) as [formatted|]; simpl; [|discriminate].
  unfold applyTrim. rewrite (strict_eq_VBool_false _ _ Htrim). simpl.
  set (v := applyCase _ _).
  assert (trimmed v) as Hv by apply trimmed_applyCase, trimmed_trim.
  unfold applyDefault. destruct (_ && _); intros [= Hs]; [by left | right].
  by rewrite Hs in Hv.
Qed.

(** *** X8: checkbox matching ignores letter case *)

(** X8.  Without [equals], the checkbox rule does not see the letter case of
    a string value: two strings with the same lower-cased form resolve
    alike. *)
Theorem resolveCheckbox_ignores_case entry s s' :
  getProp entry "equals" = VUndefined →
  toLowerCase s = toLowerCase s' →
  resolveCheckbox (VStr s) entry = resolveCheckbox (VStr s') entry.
Proof.
  intros Heq Hfold. unfold resolveCheckbox. rewrite Heq. simpl. rewrite Hfold.
  assert (bool_decide (s = "") = bool_decide (s' = "")) as ->; [|done].
  apply bool_decide_ext. unfold toLowerCase in Hfold.
  rewrite <- (map_string_empty lower_ascii s), <- (map_string_empty lower_ascii s').
  by rewrite Hfold.
Qed.

(** *** X9: missing data *)

Lemma modifiers_skip_nullish entry base :
  nullish base = true →
  applyFormat entry base = Ok base
  ∧ applyTrim entry (applySuffix entry (applyPrefix entry base)) = base.
Proof.
  intros Hb.
  assert (base = VUndefined ∨ base = VNull) as Hcases by (destruct base; auto; discriminate).
  assert (truthy base = false) as Hfalsy by by destruct Hcases as [-> | ->].
  split.
  { unfold applyFormat, formatValue.
    destruct (truthy (getProp entry "format")); [|done].
    by destruct Hcases as [-> | ->]. }
  unfold applyPrefix. rewrite Hfalsy, andb_false_r.
  unfold applySuffix. rewrite Hfalsy, andb_false_r.
  unfold applyTrim. destruct (negb _); [|done]. by destruct Hcases as [-> | ->].
Qed.

(** X9.  When the base value of an entry is [null] or [undefined] (the data
    is missing), no format, prefix, suffix, trim or case transform applies:
    a checkbox without [equals] resolves to [false], a radio to its default
    or else [null], any other entry to its default if one is defined and
    else to the base value itself -- never to a bare prefix or suffix. *)
Theorem resolveEntry_missing_data ref props context base :
  getProp (VObj ref props) "value" = VUndefined →
  baseValue (VObj ref props) context = Ok base →
  nullish base = true →
  (getProp (VObj ref props) "type" = VStr "checkbox" →
   getProp (VObj ref props) "equals" = VUndefined →
   resolveEntry (VObj ref props) context = Ok (VBool false))
  ∧ (getProp (VObj ref props) "type" = VStr "radio" →
     resolveEntry (VObj ref props) context
     = Ok (coalesce (getProp (VObj ref props) "default") VNull))
  ∧ (getProp (VObj ref props) "type" ≠ VStr "checkbox" →
     getProp (VObj ref props) "type" ≠ VStr "radio" →
     resolveEntry (VObj ref props) context
     = Ok (if is_undefined (getProp (VObj ref props) "default") then base
           else getProp (VObj ref props) "default")).
Proof.
  intros Hvalue Hbase Hnull. unfold resolveEntry.
  cbn [nullish typeof]. rewrite Hvalue, Hbase. simpl.
  destruct (modifiers_skip_nullish (VObj ref props) _ Hnull) as [Hformat Hmodifiers].
  rewrite Hformat. simpl. rewrite Hmodifiers. split; [|split].
  - intros -> Heq. simpl. unfold resolveCheckbox. rewrite Heq, Hnull. simpl.
    rewrite andb_false_r. by destruct base.
  - intros ->. simpl. unfold resolveRadio. by rewrite Hnull.
  - intros Hcheck Hradio.
    rewrite (strict_eq_VStr_false _ _ Hcheck), (strict_eq_VStr_false _ _ Hradio).
    assert (applyCase (VObj ref props) base = base) as ->.
    { unfold applyCase. destruct base; try discriminate;
        by repeat destruct (truthy _). }
    unfold applyDefault. destruct base; try discriminate; simpl;
      by destruct (is_undefined _).
Qed.

(** *** X10, X11: the builder as a whole *)

Lemma forEach_returns context fields output0 :
  (∀ k e, (k, e) ∈ fields → ∃ v, resolveEntry e context = Ok v) →
  ∃ output, forEach context fields output0 = Ok output.
Proof.
  revert output0. induction fields as [|[k e] fields IH]; intros output0 Hall; simpl.
  - eauto.
  - unfold addField at 1. simpl.
    destruct (Hall k e) as [v ->]; [by left|]. simpl.
    apply IH. intros k' e' Hin. apply (Hall k' e'). by right.
Qed.

Lemma forEach_throws_at context fields output0 x :
  forEach context fields output0 = Throw x →
  ∃ k e, (k, e) ∈ fields ∧ resolveEntry e context = Throw x.
Proof.
  revert output0. induction fields as [|[k e] fields IH]; intros output0; simpl; [done|].
  unfold addField at 1. simpl.
  destruct (resolveEntry e context) as [v|x'] eqn:He; simpl.
  - intros (k' & e' & Hin & Hthrow)%IH. exists k', e'. split; [by right | done].
  - intros [= ->]. exists k, e. split; [by left | done].
Qed.

Lemma forEach_fails context fields output0 k e x :
  (k, e) ∈ fields → resolveEntry e context = Throw x →
  forEach context fields output0 = Throw TypeError.
Proof.
  intros Hin Hthrow.
  destruct (forEach context fields output0) as [output|x'] eqn:Hloop.
  - exfalso. revert output0 Hloop.
    induction fields as [|[k' e'] fields IH]; intros output0; simpl.
    + by apply elem_of_nil in Hin.
    + unfold addField at 1. simpl.
      apply elem_of_cons in Hin as [[= <- <-] | Hin].
      * by rewrite Hthrow.
      * destruct (resolveEntry e' context); simpl; [by apply IH | done].
  - by rewrite (forEach_throws _ _ _ _ Hloop).
Qed.

(** X10.  Past the configuration check the builder is all or nothing: it
    returns an output exactly when every declared entry resolves, and raises
    a [TypeError] exactly when some entry raises one, whatever the other
    entries resolve to. *)
Theorem buildFieldValues_all_or_nothing mappingConfig context :
  truthy mappingConfig = true →
  typeof mappingConfig = TObject →
  ((∃ output, buildFieldValues mappingConfig context = Ok output)
   ↔ ∀ k e, (k, e) ∈ entries mappingConfig → ∃ v, resolveEntry e context = Ok v)
  ∧ (buildFieldValues mappingConfig context = Throw TypeError
     ↔ ∃ k e, (k, e) ∈ entries mappingConfig
              ∧ resolveEntry e context = Throw TypeError).
Proof.
  intros Htruthy Htype. unfold buildFieldValues.
  rewrite Htruthy, bool_decide_eq_false_2 by (by intros []). simpl.
  split; split.
  - intros [output Hloop] k e Hin.
    destruct (resolveEntry e context) as [v|x] eqn:He; [eauto|].
    by rewrite (forEach_fails _ _ _ _ _ _ Hin He) in Hloop.
  - apply forEach_returns.
  - intros (k & e & Hin & He)%forEach_throws_at. eauto.
  - intros (k & e & Hin & He). by eapply forEach_fails.
Qed.

(** X11.  The result does not depend on the order in which the fields are
    declared: two mapping definitions with the same fields (of distinct
    names) in a different order give the same output, or both raise. *)
Theorem buildFieldValues_order ref ref' props props' context :
  props ≡ₚ props' →
  NoDup props.*1 →
  buildFieldValues (VObj ref props) context = buildFieldValues (VObj ref' props') context.
Proof.
  intros Hperm Hnodup. unfold buildFieldValues. simpl.
  assert (NoDup props'.*1) as Hnodup' by by rewrite <- Hperm.
  destruct (forEach context props ∅) as [output|x] eqn:Hloop.
  - destruct (forEach context props' ∅) as [output'|x'] eqn:Hloop'.
    + f_equal. apply map_eq. intros k.
      destruct (forEach_spec _ _ _ _ Hloop Hnodup) as [Hin Hout].
      destruct (forEach_spec _ _ _ _ Hloop' Hnodup') as [Hin' Hout'].
      destruct (decide (k ∈ props.*1)) as [Hk | Hk].
      * apply list_elem_of_fmap in Hk as ([k' e] & -> & Hke). simpl.
        destruct (Hin _ _ Hke) as (v & Hv & ->).
        rewrite Hperm in Hke. destruct (Hin' _ _ Hke) as (v' & Hv' & ->).
        by replace v' with v by congruence.
      * rewrite (Hout _ Hk). rewrite Hperm in Hk. by rewrite (Hout' _ Hk).
    + apply forEach_throws_at in Hloop' as (k & e & Hin & He).
      rewrite <- Hperm in Hin. by rewrite (forEach_fails _ _ _ _ _ _ Hin He) in Hloop.
  - pose proof (forEach_throws _ _ _ _ Hloop) as ->.
    apply forEach_throws_at in Hloop as (k & e & Hin & He).
    rewrite Hperm in Hin. symmetry. by eapply forEach_fails.
Qed.

End engine_properties.

(** ** Properties of the form filler *)

Section filling_properties.
Context {rt : Runtime}.

(** X12.  [coerceCheckboxValue] is the boolean coercion of its argument, but
    for two cases: [NaN] counts as checked, and a string counts as unchecked
    exactly when its trimmed, lower-cased text is empty or one of "false",
    "0", "off", "no", "unchecked" -- every other string is checked, listed
    among the "true" words or not. *)
Theorem coerceCheckboxValue_spec v :
  coerceCheckboxValue v
  = match v with
    | VNum NaN => true
    | VStr s =>
        negb (bool_decide
                (toLowerCase (trim s) ∈ [""; "false"; "0"; "off"; "no"; "unchecked"]))
    | _ => truthy v
    end.
Proof.
  destruct v as [| |b|n|s| | |]; try done.
  - by destruct n as [|neg|q].
  - unfold coerceCheckboxValue.
    remember (toLowerCase (trim s)) as normalized eqn:Hnorm.
    assert (normalized ∈ [""; "false"; "0"; "off"; "no"; "unchecked"]
            ↔ normalized = "" ∨ normalized = "false" ∨ normalized = "0"
              ∨ normalized = "off" ∨ normalized = "no" ∨ normalized = "unchecked")
      as Hiff by (rewrite !elem_of_cons, elem_of_nil; tauto).
    destruct (decide (normalized ∈ [""; "false"; "0"; "off"; "no"; "unchecked"]))
      as [Hin | Hout].
    + rewrite (bool_decide_eq_true_2 _ Hin). simpl.
      apply Hiff in Hin. clear Hnorm Hiff.
      by destruct Hin as [-> | [-> | [-> | [-> | [-> | ->]]]]].
    + rewrite (bool_decide_eq_false_2 _ Hout). simpl.
      assert (s ≠ "") as Hs.
      { intros ->. apply Hout. subst normalized. by left. }
      rewrite 6!(bool_decide_eq_false_2 (normalized = _))
        by (intros Heq; apply Hout, Hiff; tauto).
      simpl. rewrite (bool_decide_eq_false_2 _ Hs). simpl.
      by repeat destruct (bool_decide _).
Qed.

(** X13.  What the engine resolves for a checkbox entry is applied as it is:
    the resolved value is a boolean and [coerceCheckboxValue] returns that
    boolean. *)
Theorem coerceCheckboxValue_resolved ref props context v :
  getProp (VObj ref props) "type" = VStr "checkbox" →
  getProp (VObj ref props) "value" = VUndefined →
  resolveEntry (VObj ref props) context = Ok v →
  v = VBool (coerceCheckboxValue v).
Proof.
  intros Htype Hvalue.
  destruct (resolveEntry_checkbox_cases _ _ context Htype Hvalue) as [-> | [b ->]];
    [discriminate|].
  by intros [= <-].
Qed.

Lemma updatable_cons getField name v fields k :
  (∃ w f, (k, w) ∈ (name, v) :: fields ∧ tryGetField getField k = Some f
          ∧ applyValueToField f w = Ok ())
  ↔ (k = name ∧ ∃ f, tryGetField getField name = Some f ∧ applyValueToField f v = Ok ())
    ∨ (∃ w f, (k, w) ∈ fields ∧ tryGetField getField k = Some f
              ∧ applyValueToField f w = Ok ()).
Proof.
  split.
  - intros (w & f & [[= -> ->] | Hin]%elem_of_cons & Hget & Happly).
    + left. split; [done|]. by exists f.
    + right. by exists w, f.
  - intros [[-> (f & Hget & Happly)] | (w & f & Hin & Hget & Happly)].
    + exists v, f. split; [by left | done].
    + exists w, f. split; [by right | done].
Qed.

Lemma fillFields_updated getField fields updated0 missing0 k :
  k ∈ (fillFields getField fields updated0 missing0).1 ↔
  k ∈ updated0
  ∨ ∃ v f, (k, v) ∈ fields ∧ tryGetField getField k = Some f
           ∧ applyValueToField f v = Ok ().
Proof.
  revert updated0 missing0.
  induction fields as [|[name v] fields IH]; intros updated0 missing0.
  - simpl. split; [by left|].
    intros [? | (v & f & Hin & _)]; [done | by apply elem_of_nil in Hin].
  - rewrite updatable_cons. simpl.
    destruct (tryGetField getField name) as [f|] eqn:Hget.
    + destruct (applyValueToField f v) as [[]|x] eqn:Happly.
      * rewrite IH, elem_of_app, list_elem_of_singleton. split.
        -- intros [[? | ->] | ?]; [by left | | by right; right].
           right. left. split; [done|]. by exists f.
        -- intros [? | [[-> _] | ?]]; [by left; left | by left; right | by right].
      * rewrite IH. split.
        -- intros [? | ?]; [by left | by right; right].
        -- intros [? | [[-> (f' & Hget' & Happly')] | ?]]; [by left | | by right].
           congruence.
    + rewrite IH. split.
      * intros [? | ?]; [by left | by right; right].
      * intros [? | [[-> (f' & Hget' & _)] | ?]]; [by left | congruence | by right].
Qed.

Lemma fillFields_missing getField fields updated0 missing0 k :
  k ∈ (fillFields getField fields updated0 missing0).2 ↔
  k ∈ missing0 ∨ (k ∈ fields.*1 ∧ tryGetField getField k = None).
Proof.
  revert updated0 missing0.
  induction fields as [|[name v] fields IH]; intros updated0 missing0.
  - simpl. split; [by left|].
    intros [? | [Hin _]]; [done | by apply elem_of_nil in Hin].
  - simpl.
    destruct (tryGetField getField name) as [f|] eqn:Hget.
    + assert (k ∈ name :: fields.*1 ∧ tryGetField getField k = None
              ↔ k ∈ fields.*1 ∧ tryGetField getField k = None) as ->.
      { rewrite elem_of_cons. split; [|by intros [? ?]; split; [right|]].
        intros [[-> | ?] Hnone]; [congruence | done]. }
      destruct (applyValueToField f v) as [[]|x]; apply IH.
    + rewrite IH, elem_of_app, list_elem_of_singleton, elem_of_cons. split.
      * intros [[? | ->] | [? ?]]; [by left | by right; split; [left|] |].
        right. split; [by right | done].
      * intros [? | [[-> | ?] ?]]; [by left; left | by left; right | by right].
Qed.

Lemma fillFields_spec getField fields updated0 missing0 :
  (∀ k, k ∈ (fillFields getField fields updated0 missing0).1 ↔
        k ∈ updated0
        ∨ ∃ v f, (k, v) ∈ fields ∧ tryGetField getField k = Some f
                 ∧ applyValueToField f v = Ok ())
  ∧ (∀ k, k ∈ (fillFields getField fields updated0 missing0).2 ↔
          k ∈ missing0 ∨ (k ∈ fields.*1 ∧ tryGetField getField k = None)).
Proof. split; intros k; [apply fillFields_updated | apply fillFields_missing]. Qed.

(** X14.  Once [data] is an object [fillPdfForm] returns, whatever the
    fields do: a name is in [missingFields] exactly when it is a key of
    [data] that the form does not have, in [updated] exactly when the form
    has the field and applying the value to it does not raise, and never in
    both; a field whose update raises is in neither. *)
Theorem fillPdfForm_partition getField data :
  truthy data = true →
  typeof data = TObject →
  ∃ updated missingFields,
    fillPdfForm getField data = Ok (updated, missingFields)
    ∧ (∀ k, k ∈ missingFields ↔
            k ∈ (entries data).*1 ∧ tryGetField getField k = None)
    ∧ (∀ k, k ∈ updated ↔
            ∃ v f, (k, v) ∈ entries data ∧ tryGetField getField k = Some f
                   ∧ applyValueToField f v = Ok ())
    ∧ (∀ k, k ∈ updated → k ∉ missingFields).
Proof.
  intros Htruthy Htype. unfold fillPdfForm.
  rewrite Htruthy, bool_decide_eq_false_2 by (by intros []). simpl.
  destruct (fillFields_spec getField (entries data) [] []) as [Hu Hm].
  destruct (fillFields getField (entries data) [] []) as [updated missingFields].
  simpl in *. exists updated, missingFields. split; [done|].
  assert (∀ k, k ∈ missingFields ↔
               k ∈ (entries data).*1 ∧ tryGetField getField k = None) as Hm'.
  { intros k. rewrite Hm. split; [|by right].
    intros [Hin | ?]; [by apply elem_of_nil in Hin | done]. }
  assert (∀ k, k ∈ updated ↔
               ∃ v f, (k, v) ∈ entries data ∧ tryGetField getField k = Some f
                      ∧ applyValueToField f v = Ok ()) as Hu'.
  { intros k. rewrite Hu. split; [|by right].
    intros [Hin | ?]; [by apply elem_of_nil in Hin | done]. }
  split; [exact Hm'|]. split; [exact Hu'|].
  intros k (v & f & _ & Hsome & _)%Hu' [_ Hnone]%Hm'. congruence.
Qed.

Lemma applyValueToField_ok f v :
  applyValueToField f v = Ok () →
  constructorName f ∈ ["PDFTextField"; "PDFDropdown"; "PDFRadioGroup"; "PDFCheckBox"]
  ∧ (constructorName f = "PDFRadioGroup" → typeof v = TString).
Proof.
  unfold applyValueToField.
  repeat case_bool_decide; try discriminate; intros _;
    (split; [rewrite !elem_of_cons; tauto | try done; congruence]).
Qed.

(** X15.  A field counted as updated is of one of the four supported kinds,
    and a radio group is only ever counted with a string value: a resolved
    value of another type (a boolean, a number, [null]) is never selected. *)
Theorem fillPdfForm_updated_supported getField data updated missingFields k :
  fillPdfForm getField data = Ok (updated, missingFields) →
  k ∈ updated →
  ∃ v f, (k, v) ∈ entries data ∧ tryGetField getField k = Some f
         ∧ constructorName f
           ∈ ["PDFTextField"; "PDFDropdown"; "PDFRadioGroup"; "PDFCheckBox"]
         ∧ (constructorName f = "PDFRadioGroup" → typeof v = TString).
Proof.
  unfold fillPdfForm. destruct (_ || _); [discriminate|].
  intros [= Hfill] Hk.
  destruct (fillFields_spec getField (entries data) [] []) as [Hu _].
  rewrite Hfill in Hu. simpl in Hu.
  apply Hu in Hk as [Hk | (v & f & Hin & Hget & Happly)]; [by apply elem_of_nil in Hk|].
  exists v, f. repeat split; try done; by apply applyValueToField_ok in Happly as [? ?].
Qed.

End filling_properties.

(** ** Properties of the data generator *)

Section generator_properties.

Lemma lookup_prop_None key props : lookup_prop key props = None ↔ key ∉ props.*1.
Proof.
  induction props as [|[k v] props IH]; simpl.
  - split; [intros _ Hin; by apply elem_of_nil in Hin | done].
  - rewrite not_elem_of_cons. case_bool_decide as Hk.
    + split; [done | by intros [? _]].
    + rewrite IH. split; [by intros ?; split | by intros [_ ?]].
Qed.

Lemma lookup_prop_assign key k v props :
  lookup_prop key (assign k v props)
  = if bool_decide (k = key) && negb (bool_decide (k = "__proto__"))
    then Some v else lookup_prop key props.
Proof.
  unfold assign. case_bool_decide as Hproto; simpl.
  - by rewrite andb_false_r.
  - by rewrite lookup_prop_setProp, andb_true_r.
Qed.

(** One turn of the loop assigns a defined value under the name of the
    field: the prefilled value if there is one. *)
Lemma generateField_step existingData g f g' :
  generateField existingData g f = Ok g' →
  ∃ v, orderedData g' = assign (getName f) v (orderedData g)
       ∧ v ≠ VUndefined
       ∧ (getProp existingData (getName f) ≠ VUndefined →
          v = getProp existingData (getName f)).
Proof.
  unfold generateField, prefilledValue.
  destruct (nullish existingData); simpl; [discriminate|].
  destruct (is_undefined (getProp existingData (getName f))) eqn:Hpre; simpl.
  - assert (getProp existingData (getName f) = VUndefined) as Hu
      by (by destruct (getProp existingData (getName f))).
    repeat case_bool_decide; try destruct (String.prefix _ _);
      intros [= <-]; simpl; eexists; (split; [reflexivity|]);
      (split; [done | by rewrite Hu]).
  - intros [= <-]. simpl. eexists. split; [reflexivity|].
    split; [by apply is_undefined_false | done].
Qed.

Lemma generateFields_lookup existingData fields g g' :
  generateFields existingData fields g = Ok g' →
  ∀ k,
    (k ∉ getName <$> fields ∨ k = "__proto__" →
     lookup_prop k (orderedData g') = lookup_prop k (orderedData g))
    ∧ (k ∈ getName <$> fields → k ≠ "__proto__" →
       ∃ v, lookup_prop k (orderedData g') = Some v
            ∧ v ≠ VUndefined
            ∧ (getProp existingData k ≠ VUndefined → v = getProp existingData k)).
Proof.
  revert g. induction fields as [|f fields IH]; intros g; simpl.
  - intros [= <-] k. split; [done|]. intros Hin. by apply elem_of_nil in Hin.
  - destruct (generateField existingData g f) as [g1|] eqn:Hstep; simpl; [|discriminate].
    apply generateField_step in Hstep as (v & Hdata & Hdef & Hpre).
    intros Hrest k. destruct (IH _ Hrest k) as [Hout Hin].
    rewrite Hdata, lookup_prop_assign in Hout. split.
    + intros [[Hne Hk]%not_elem_of_cons | ->].
      * rewrite Hout by by left. by rewrite bool_decide_eq_false_2.
      * rewrite Hout by by right.
        destruct (bool_decide (getName f = "__proto__")) eqn:Hname; [|done].
        by rewrite andb_false_r.
    + intros Hk Hproto.
      destruct (decide (k ∈ getName <$> fields)) as [Hrest' | Hrest']; [by auto|].
      apply elem_of_cons in Hk as [-> | ?]; [|done].
      rewrite Hout by by left.
      rewrite bool_decide_eq_true_2 by done.
      rewrite (bool_decide_eq_false_2 _ Hproto). simpl. eauto.
Qed.

Lemma generateFields_returns existingData fields g :
  nullish existingData = false → ∃ g', generateFields existingData fields g = Ok g'.
Proof.
  intros Hdata. revert g. induction fields as [|f fields IH]; intros g; simpl; [eauto|].
  unfold generateField at 1, prefilledValue. rewrite Hdata. simpl.
  destruct (negb _); [apply IH|].
  repeat case_bool_decide; try destruct (String.prefix _ _); simpl; apply IH.
Qed.

(** X16.  When the generator returns over a form with one field of a name,
    its data has a key for every field but one named ["__proto__"], for which
    the assignment creates none, and for nothing else; no value of it is
    [undefined]; and a field the existing data already has a value for keeps
    that value. *)
Theorem generateData_keeps_prefilled fields existingData data :
  NoDup (getName <$> fields) →
  generateData fields existingData = Ok data →
  (∀ k, k ∈ data.*1 ↔ k ∈ getName <$> fields ∧ k ≠ "__proto__")
  ∧ (∀ f, f ∈ fields → getName f ≠ "__proto__" →
       ∃ v, lookup_prop (getName f) data = Some v
            ∧ v ≠ VUndefined
            ∧ (getProp existingData (getName f) ≠ VUndefined →
               v = getProp existingData (getName f))).
Proof.
  intros _. unfold generateData.
  destruct (generateFields _ _ _) as [g|] eqn:Hrun; simpl; [|discriminate].
  intros [= <-]. pose proof (generateFields_lookup _ _ _ _ Hrun) as Hlook. split.
  - intros k. destruct (Hlook k) as [Hout Hin].
    destruct (decide (k ∈ getName <$> fields ∧ k ≠ "__proto__")) as [[Hk Hproto] | Hk].
    + split; [done|]. intros _. destruct (Hin Hk Hproto) as (v & Hv & _).
      destruct (decide (k ∈ (orderedData g).*1)) as [|Hno]; [done|].
      apply lookup_prop_None in Hno. congruence.
    + split; [|done]. intros Hin'. exfalso.
      assert (k ∉ getName <$> fields ∨ k = "__proto__") as Hcases.
      { destruct (decide (k ∈ getName <$> fields)); [|by left].
        destruct (decide (k = "__proto__")); [by right|]. by destruct Hk. }
      specialize (Hout Hcases). simpl in Hout. apply lookup_prop_None in Hout. done.
  - intros f Hf Hproto. destruct (Hlook (getName f)) as [_ Hin].
    apply Hin; [|done]. apply list_elem_of_fmap. by exists f.
Qed.

(** X17.  Generating again over the generated data changes nothing: the
    second run returns, and every key holds the value it held. *)
Theorem generateData_idempotent fields existingData data ref :
  generateData fields existingData = Ok data →
  ∃ data', generateData fields (VObj ref data) = Ok data'
           ∧ ∀ k, lookup_prop k data' = lookup_prop k data.
Proof.
  unfold generateData.
  destruct (generateFields existingData _ _) as [g|] eqn:Hrun; simpl; [|discriminate].
  intros [= <-].
  destruct (generateFields_returns (VObj ref (orderedData g)) fields
              {| shortTextCounter := 1; longTextCounter := 1; checkboxToggle := true;
                 orderedData := [] |}) as [g' Hrun']; [done|].
  rewrite Hrun'. simpl. exists (orderedData g'). split; [done|].
  intros k.
  destruct (generateFields_lookup _ _ _ _ Hrun k) as [Hout Hin].
  destruct (generateFields_lookup _ _ _ _ Hrun' k) as [Hout' Hin'].
  destruct (decide (k ∈ getName <$> fields)) as [Hk | Hk].
  - destruct (decide (k = "__proto__")) as [Hproto | Hproto].
    + by rewrite Hout, Hout' by by right.
    + destruct (Hin Hk Hproto) as (v & Hv & Hdef & _).
      destruct (Hin' Hk Hproto) as (v' & Hv' & _ & Hpre).
      rewrite Hv, Hv'. f_equal. unfold getProp in Hpre. simpl in Hpre.
      rewrite Hv in Hpre. by apply Hpre.
  - by rewrite Hout, Hout' by by left.
Qed.

End generator_properties.

(** ** Properties of the command line of [inspect_form.js] *)

Section command_line.
Import InspectForm.

Lemma parseLoop_positional inputPath argv :
  Forall (λ arg, arg ∉ ["-i"; "--input"; "-h"; "--help"]) argv →
  parseLoop inputPath argv
  = match last argv with
    | None => Returned inputPath
    | Some p =>
        if from_option replaceable true inputPath && forallb replaceable (removelast argv)
        then Returned (Some p) else Exited 1
    end.
Proof.
  intros Hargs. revert inputPath.
  induction Hargs as [|arg rest Harg _ IH]; intros inputPath; [done|].
  cbn [parseLoop].
  rewrite !bool_decide_eq_false_2
    by (intros ->; apply Harg; rewrite !elem_of_cons; tauto).
  cbn [orb].
  assert ((match inputPath with
           | None => true
           | Some p => bool_decide (p = "") || bool_decide (p = DEFAULT_INPUT)
           end) = from_option replaceable true inputPath) as -> by by destruct inputPath.
  destruct rest as [|arg' rest].
  { by destruct (from_option replaceable true inputPath). }
  change (last (arg :: arg' :: rest)) with (last (arg' :: rest)).
  change (removelast (arg :: arg' :: rest)) with (arg :: removelast (arg' :: rest)).
  cbn [forallb]. rewrite IH.
  destruct (last (arg' :: rest)) as [p|] eqn:Hlast; [|by apply last_None in Hlast].
  by destruct (from_option replaceable true inputPath).
Qed.

(** X18.  On arguments that are not options, [parseArgs] takes the last one
    as the input path, and accepts a further argument only while the path so
    far is the default ["austria.pdf"] or empty: it returns exactly when
    every argument but the last is one of these two, and otherwise exits
    with code 1. *)
Theorem parseArgs_positional argv :
  Forall (λ arg, arg ∉ ["-i"; "--input"; "-h"; "--help"]) argv →
  parseArgs argv
  = match last argv with
    | None => Returned (Some DEFAULT_INPUT)
    | Some p =>
        if forallb replaceable (removelast argv)
        then Returned (Some p) else Exited 1
    end.
Proof. intros Hargs. unfold parseArgs. by rewrite parseLoop_positional. Qed.

End command_line.

(** ** Further properties of the specializers and the formatter *)

Section more_engine_properties.
Context {rt : Runtime}.

(** X19.  [resolveRadio] never returns [undefined]; and it returns [null]
    only for a [null] or [undefined] value without a default, or when the
    map binds the value to [null]. *)
Theorem resolveRadio_never_undefined v entry :
  resolveRadio v entry ≠ VUndefined
  ∧ (resolveRadio v entry = VNull →
     (nullish v = true ∧ nullish (getProp entry "default") = true)
     ∨ getProp (getProp entry "map") (toString v) = VNull).
Proof.
  unfold resolveRadio, coalesce.
  destruct (nullish v) eqn:Hv.
  - destruct (nullish (getProp entry "default")) eqn:Hd.
    + split; [done | by left].
    + split; [by destruct (getProp entry "default")|].
      intros Heq. by rewrite Heq in Hd.
  - set (folded := match v with VStr s => _ | _ => None end).
    assert (∀ hit, folded = Some hit → truthy hit = true) as Hfolded.
    { intros hit. unfold folded. destruct v; try discriminate.
      destruct (truthy (getProp entry "caseInsensitive")); [|discriminate].
      destruct (truthy (default _ _)) eqn:Hhit; [|discriminate]. by intros [= <-]. }
    destruct folded as [hit|].
    + specialize (Hfolded hit eq_refl).
      split; intros Heq; by rewrite Heq in Hfolded.
    + destruct (truthy (getProp entry "map")
                && negb (is_undefined (getProp (getProp entry "map") (toString v))))
        eqn:Hmap.
      * apply andb_true_iff in Hmap as [_ Hdef%negb_true_iff].
        split; [by apply is_undefined_false | by right].
      * destruct (nullish (getProp entry "default")) eqn:Hd.
        -- split; intros Heq; by rewrite Heq in Hv.
        -- split; intros Heq; by rewrite Heq in Hd.
Qed.

Lemma padStart2_length z :
  0 ≤ z ≤ 99 → String.length (padStart2 (pretty z)) = 2%nat.
Proof.
  destruct z as [|p|p]; [done | | lia]. intros [_ Hp].
  do 7 (destruct p as [p|p|]; try lia; try reflexivity).
Qed.

(** X20.  For a value that denotes a valid date, on a host whose days run
    from 1 to 31 and months from 0 to 11, the two date formats give the
    year's numeral (not padded) with a two-character day and a two-character
    month (zero-padded): day.month.year for [DATE_DDMMYYYY] and
    year-month-day for [DATE_ISO]. *)
Theorem formatValue_date_shape v t :
  v ≠ VUndefined → v ≠ VNull → v ≠ VStr "" →
  dateOf v = Ok (Some t) →
  1 ≤ getDate t ≤ 31 →
  0 ≤ getMonth t ≤ 11 →
  ∃ dd mm,
    dd = padStart2 (pretty (getDate t))
    ∧ mm = padStart2 (pretty (getMonth t + 1))
    ∧ String.length dd = 2%nat
    ∧ String.length mm = 2%nat
    ∧ formatValue v (VStr "DATE_DDMMYYYY")
      = Ok (VStr (dd +:+ "." +:+ mm +:+ "." +:+ pretty (getFullYear t)))
    ∧ formatValue v (VStr "DATE_ISO")
      = Ok (VStr (pretty (getFullYear t) +:+ "-" +:+ mm +:+ "-" +:+ dd)).
Proof.
  intros Hu Hn Hs Hdate Hday Hmonth.
  exists (padStart2 (pretty (getDate t))), (padStart2 (pretty (getMonth t + 1))).
  split; [done|]. split; [done|].
  split; [apply padStart2_length; lia|]. split; [apply padStart2_length; lia|].
  assert (is_undefined v || strict_eq v VNull || strict_eq v (VStr "") = false) as Hblank.
  { pose proof (contributes_true v) as [_ Hc]. unfold contributes in Hc.
    destruct (is_undefined v), (strict_eq v VNull), (strict_eq v (VStr "")); try done;
      by specialize (Hc ltac:(done)). }
  unfold formatValue, formatDate. rewrite Hblank, Hdate. simpl.
  by rewrite !append_empty_r.
Qed.

End more_engine_properties.

(** ** The further properties at concrete inputs *)

Section more_instances.
Local Existing Instance Utc.runtime.
Import InspectForm.

Lemma getPathValue_compose_witness :
  getPathValue jane (VStr ("traveler" +:+ "." +:+ "firstName"))
  = v ← getPathValue jane (VStr "traveler"); getPathValue v (VStr "firstName").
Proof. apply getPathValue_compose; discriminate. Defined.



Lemma resolveEntry_default_fills_witness :
  (VStr "n/a"
   = getProp (VObj 3 [("path", VStr "traveler.middleName"); ("default", VStr "n/a")])
       "default"
   ∨ isBlank (VStr "n/a") = false)
  ∧ (isBlank (getProp (VObj 3 [("path", VStr "traveler.middleName");
                               ("default", VStr "n/a")]) "default") = false →
     isBlank (VStr "n/a") = false).
Proof.
  apply (resolveEntry_default_fills 3
           [("path", VStr "traveler.middleName"); ("default", VStr "n/a")] jane);
    try discriminate; reflexivity.
Defined.

Lemma resolveEntry_typed_ignores_case_witness :
  resolveEntry
    (VObj 3 (setProp "uppercase" (VBool true)
               (setProp "lowercase" (VBool false)
                  [("type", VStr "radio"); ("path", VStr "traveler.firstName")]))) jane
  = resolveEntry (VObj 3 [("type", VStr "radio"); ("path", VStr "traveler.firstName")]) jane.
Proof. apply resolveEntry_typed_ignores_case. right. reflexivity. Defined.

Lemma resolveEntry_lowercase_wins_witness :
  VStr "doe"
  = getProp (VObj 3 [("path", VStr "traveler.lastName"); ("lowercase", VBool true);
                     ("uppercase", VBool true)]) "default"
  ∨ toLowerCase "doe" = "doe".
Proof.
  apply (resolveEntry_lowercase_wins 3
           [("path", VStr "traveler.lastName"); ("lowercase", VBool true);
            ("uppercase", VBool true)] jane);
    try discriminate; reflexivity.
Defined.

Lemma resolveEntry_trimmed_witness :
  VStr "Ms Doe"
  = getProp (VObj 3 [("path", VStr "traveler.lastName"); ("prefix", VStr " Ms ")]) "default"
  ∨ trim "Ms Doe" = "Ms Doe".
Proof.
  apply (resolveEntry_trimmed 3
           [("path", VStr "traveler.lastName"); ("prefix", VStr " Ms ")] jane);
    try discriminate; reflexivity.
Defined.

Lemma resolveCheckbox_ignores_case_witness :
  resolveCheckbox (VStr "YES") (VObj 3 [("truthyValues", VArr 4 [VStr "yes"])])
  = resolveCheckbox (VStr "yes") (VObj 3 [("truthyValues", VArr 4 [VStr "yes"])]).
Proof. apply resolveCheckbox_ignores_case; reflexivity. Defined.

Lemma resolveEntry_missing_data_witness :
  (getProp (VObj 3 [("path", VStr "traveler.title"); ("prefix", VStr "Dear ");
                    ("type", VStr "radio")]) "type" = VStr "checkbox" →
   getProp (VObj 3 [("path", VStr "traveler.title"); ("prefix", VStr "Dear ");
                    ("type", VStr "radio")]) "equals" = VUndefined →
   resolveEntry (VObj 3 [("path", VStr "traveler.title"); ("prefix", VStr "Dear ");
                         ("type", VStr "radio")]) jane = Ok (VBool false))
  ∧ (getProp (VObj 3 [("path", VStr "traveler.title"); ("prefix", VStr "Dear ");
                      ("type", VStr "radio")]) "type" = VStr "radio" →
     resolveEntry (VObj 3 [("path", VStr "traveler.title"); ("prefix", VStr "Dear ");
                           ("type", VStr "radio")]) jane
     = Ok (coalesce
             (getProp (VObj 3 [("path", VStr "traveler.title"); ("prefix", VStr "Dear ");
                               ("type", VStr "radio")]) "default") VNull))
  ∧ (getProp (VObj 3 [("path", VStr "traveler.title"); ("prefix", VStr "Dear ");
                      ("type", VStr "radio")]) "type" ≠ VStr "checkbox" →
     getProp (VObj 3 [("path", VStr "traveler.title"); ("prefix", VStr "Dear ");
                      ("type", VStr "radio")]) "type" ≠ VStr "radio" →
     resolveEntry (VObj 3 [("path", VStr "traveler.title"); ("prefix", VStr "Dear ");
                           ("type", VStr "radio")]) jane
     = Ok (if is_undefined
                (getProp (VObj 3 [("path", VStr "traveler.title");
                                  ("prefix", VStr "Dear "); ("type", VStr "radio")])
                   "default")
           then VUndefined
           else getProp (VObj 3 [("path", VStr "traveler.title");
                                 ("prefix", VStr "Dear "); ("type", VStr "radio")])
                  "default")).
Proof. apply resolveEntry_missing_data; reflexivity. Defined.

Lemma buildFieldValues_all_or_nothing_witness :
  ((∃ output,
      buildFieldValues
        (VObj 3 [("name", VStr "traveler.firstName"); ("visa", VObj 4 [("path", VBool true)])])
        jane = Ok output)
   ↔ ∀ k e,
       (k, e) ∈ entries (VObj 3 [("name", VStr "traveler.firstName");
                                 ("visa", VObj 4 [("path", VBool true)])]) →
       ∃ v, resolveEntry e jane = Ok v)
  ∧ (buildFieldValues
       (VObj 3 [("name", VStr "traveler.firstName"); ("visa", VObj 4 [("path", VBool true)])])
       jane = Throw TypeError
     ↔ ∃ k e,
         (k, e) ∈ entries (VObj 3 [("name", VStr "traveler.firstName");
                                   ("visa", VObj 4 [("path", VBool true)])])
         ∧ resolveEntry e jane = Throw TypeError).
Proof. apply buildFieldValues_all_or_nothing; reflexivity. Defined.

Lemma buildFieldValues_order_witness :
  buildFieldValues
    (VObj 3 [("name", VStr "traveler.firstName"); ("agree", VObj 4 [("value", VBool true)])])
    jane
  = buildFieldValues
      (VObj 5 [("agree", VObj 4 [("value", VBool true)]); ("name", VStr "traveler.firstName")])
      jane.
Proof.
  apply buildFieldValues_order.
  - apply perm_swap.
  - apply (bool_decide_unpack _). vm_compute. exact I.
Defined.

Lemma coerceCheckboxValue_resolved_witness :
  VBool true = VBool (coerceCheckboxValue (VBool true)).
Proof.
  apply (coerceCheckboxValue_resolved 3
           [("type", VStr "checkbox"); ("path", VStr "traveler.firstName")] jane);
    reflexivity.
Defined.

Lemma fillPdfForm_partition_witness :
  ∃ updated missingFields,
    fillPdfForm sampleForm sampleData = Ok (updated, missingFields)
    ∧ (∀ k, k ∈ missingFields ↔
            k ∈ (entries sampleData).*1 ∧ tryGetField sampleForm k = None)
    ∧ (∀ k, k ∈ updated ↔
            ∃ v f, (k, v) ∈ entries sampleData ∧ tryGetField sampleForm k = Some f
                   ∧ applyValueToField f v = Ok ())
    ∧ (∀ k, k ∈ updated → k ∉ missingFields).
Proof. apply fillPdfForm_partition; reflexivity. Defined.

Lemma fillPdfForm_updated_supported_witness :
  ∃ v f, ("minor", v) ∈ entries sampleData ∧ tryGetField sampleForm "minor" = Some f
         ∧ constructorName f
           ∈ ["PDFTextField"; "PDFDropdown"; "PDFRadioGroup"; "PDFCheckBox"]
         ∧ (constructorName f = "PDFRadioGroup" → typeof v = TString).
Proof.
  apply (fillPdfForm_updated_supported sampleForm sampleData
           ["surname"; "minor"] ["nickname"]).
  - reflexivity.
  - apply (bool_decide_unpack _). vm_compute. exact I.
Defined.

Lemma generateData_keeps_prefilled_witness :
  (∀ k,
     k ∈ [("surname", VStr "Doe"); ("textarea_notes", VStr "");
          ("minor", VBool true); ("sex", VStr "male"); ("insured", VBool false)].*1
     ↔ k ∈ getName <$> textField "__proto__" :: sampleFields ∧ k ≠ "__proto__")
  ∧ (∀ f, f ∈ textField "__proto__" :: sampleFields → getName f ≠ "__proto__" →
       ∃ v,
         lookup_prop (getName f)
           [("surname", VStr "Doe"); ("textarea_notes", VStr "");
            ("minor", VBool true); ("sex", VStr "male"); ("insured", VBool false)]
         = Some v
         ∧ v ≠ VUndefined
         ∧ (getProp (VObj 1 [("surname", VStr "Doe"); ("textarea_notes", VStr "")])
              (getName f) ≠ VUndefined →
            v = getProp (VObj 1 [("surname", VStr "Doe"); ("textarea_notes", VStr "")])
                  (getName f))).
Proof.
  apply (generateData_keeps_prefilled (textField "__proto__" :: sampleFields)
           (VObj 1 [("surname", VStr "Doe"); ("textarea_notes", VStr "")])).
  - apply (bool_decide_unpack _). vm_compute. exact I.
  - reflexivity.
Defined.

Lemma generateData_idempotent_witness :
  ∃ data',
    generateData sampleFields
      (VObj 2 [("surname", VStr "Sample value #1 for surname");
               ("textarea_notes",
                VStr ("Multiline sample paragraph #1" +:+ newline
                      +:+ "Second line for textarea_notes"));
               ("minor", VBool true); ("sex", VStr "male"); ("insured", VBool false)])
    = Ok data'
    ∧ ∀ k,
        lookup_prop k data'
        = lookup_prop k
            [("surname", VStr "Sample value #1 for surname");
             ("textarea_notes",
              VStr ("Multiline sample paragraph #1" +:+ newline
                    +:+ "Second line for textarea_notes"));
             ("minor", VBool true); ("sex", VStr "male"); ("insured", VBool false)].
Proof. apply (generateData_idempotent sampleFields (VObj 1 [])). reflexivity. Defined.

Lemma parseArgs_positional_witness :
  parseArgs ["austria.pdf"; "visa.pdf"] = Returned (Some "visa.pdf").
Proof.
  apply (parseArgs_positional ["austria.pdf"; "visa.pdf"]).
  apply List.Forall_cons; [|apply List.Forall_cons; [|apply List.Forall_nil]];
    apply (bool_decide_unpack _); vm_compute; exact I.
Defined.

Lemma formatValue_date_shape_witness :
  ∃ dd mm,
    dd = padStart2 (pretty (getDate 1709596800000))
    ∧ mm = padStart2 (pretty (getMonth 1709596800000 + 1))
    ∧ String.length dd = 2%nat
    ∧ String.length mm = 2%nat
    ∧ formatValue (VStr "2024-03-05") (VStr "DATE_DDMMYYYY")
      = Ok (VStr (dd +:+ "." +:+ mm +:+ "." +:+ pretty (getFullYear 1709596800000)))
    ∧ formatValue (VStr "2024-03-05") (VStr "DATE_ISO")
      = Ok (VStr (pretty (getFullYear 1709596800000) +:+ "-" +:+ mm +:+ "-" +:+ dd)).
Proof.
  apply formatValue_date_shape; try discriminate.
  - reflexivity.
  - by vm_compute.
  - by vm_compute.
Defined.

End more_instances.
